(** * deepdectoc: document normalisation and structured extraction

    A shallow embedding of [src/deepdectoc.py]: the format dispatch of
    [UniversalConverter.to_pdf], the table helper [table_to_html], and the
    page loop of [main] that builds the JSON document.

    Python strings are modelled by [string]; one [ascii] stands for one code
    point below 256, on which [str.isspace] and [str.lower] are written out
    in full.  Dictionaries are [gmap]s, Python lists are [list]s. *)

From Stdlib Require Import Ascii String ZArith.
From stdpp Require Import base list gmap strings sorting pretty.

Set Warnings "-register-all".

Open Scope string_scope.
Open Scope list_scope.
Open Scope nat_scope.

(** ** Python string methods *)
Module PyStr.

(** The line feed, Python's ["\n"]. *)
Definition LF : ascii := ascii_of_nat 10.
Definition SPACE : ascii := ascii_of_nat 32.
Definition nl : string := String LF EmptyString.

(** [str.isspace] on one code point below 256: TAB, LF, VT, FF, CR,
    FS, GS, RS, US, SPACE, NEL (0x85) and NBSP (0xA0). *)
Definition isspace (a : ascii) : bool :=
  let n := nat_of_ascii a in
  ((9 <=? n) && (n <=? 13)) || ((28 <=? n) && (n <=? 32))
   || (n =? 133) || (n =? 160).

(** [str.lstrip()] *)
Fixpoint lstrip (s : string) : string :=
  match s with
  | EmptyString => EmptyString
  | String a s' => if isspace a then lstrip s' else s
  end.

(** [str.rstrip()] *)
Fixpoint rstrip (s : string) : string :=
  match s with
  | EmptyString => EmptyString
  | String a s' =>
      match rstrip s' with
      | EmptyString => if isspace a then EmptyString else String a EmptyString
      | t => String a t
      end
  end.

(** [str.strip()] *)
Definition strip (s : string) : string := rstrip (lstrip s).

(** [s.replace("\n", " ")]: the pattern is one character long, so the
    replacement is character by character. *)
Fixpoint replace_nl (s : string) : string :=
  match s with
  | EmptyString => EmptyString
  | String a s' => String (if Ascii.eqb a LF then SPACE else a) (replace_nl s')
  end.

(** [str.lower] on one code point below 256: A-Z, and the Latin-1 capitals
    0xC0-0xDE without the multiplication sign 0xD7, move up by 32. *)
Definition lower_char (a : ascii) : ascii :=
  let n := nat_of_ascii a in
  if ((65 <=? n) && (n <=? 90))
      || ((192 <=? n) && (n <=? 222) && negb (n =? 215))
  then ascii_of_nat (n + 32) else a.

Fixpoint lower (s : string) : string :=
  match s with
  | EmptyString => EmptyString
  | String a s' => String (lower_char a) (lower s')
  end.

(** Truth value of a string: [bool(s)]. *)
Definition truthy (s : string) : bool :=
  match s with EmptyString => false | String _ _ => true end.

(** Every character of [s] is white space. *)
Fixpoint all_space (s : string) : bool :=
  match s with
  | EmptyString => true
  | String a s' => isspace a && all_space s'
  end.

(** The first and the last character of a string. *)
Definition first_char (s : string) : option ascii :=
  match s with EmptyString => None | String a _ => Some a end.

Fixpoint last_char (s : string) : option ascii :=
  match s with
  | EmptyString => None
  | String a EmptyString => Some a
  | String _ s' => last_char s'
  end.

(** [t] occurs in [s] as a contiguous piece. *)
Definition occurs_in (t s : string) : Prop :=
  ∃ pre post, s = pre +:+ t +:+ post.

End PyStr.

(** ** The engine's table objects *)

(** A table cell as the layout engine reports it: the row and column
    indices are natural numbers, and the text is a string (possibly the
    empty one). *)
Record Cell := mkCell {
  row_number : nat;
  column_number : nat;
  text : string
}.

(** Its coordinate. *)
Definition coord (cell : Cell) : nat * nat :=
  (row_number cell, column_number cell).

(** ** The JSON grid of [main] *)

(** [while len(l) <= i: l.append(x)]: one [append] per iteration, and the
    loop runs [S i - len(l)] times. *)
Fixpoint append_times {A} (k : nat) (x : A) (l : list A) : list A :=
  match k with
  | 0 => l
  | S k' => append_times k' x (l ++ [x])
  end.

Definition grow {A} (x : A) (l : list A) (i : nat) : list A :=
  append_times (S i - length l) x l.

(** [cell.text.strip() if cell.text else ""] *)
Definition json_text (t : string) : string :=
  if PyStr.truthy t then PyStr.strip t else "".

(** The body of [for cell in table.cells] that fills [rows_json]. *)
Definition rows_json_step (rows_json : list (list string)) (cell : Cell)
  : list (list string) :=
  let r := row_number cell in
  let c := column_number cell in
  let rows1 := grow [] rows_json r in
  let row1 := grow "" (rows1 !!! r) c in
  <[r := <[c := json_text (text cell)]> row1]> rows1.

(** [rows_json] once the loop over the cells is over. *)
Definition rows_json_of (cells : list Cell) : list (list string) :=
  foldl rows_json_step [] cells.

(** [any(row)] on a list of strings. *)
Definition any (row : list string) : bool := existsb PyStr.truthy row.

(** The ["rows"] entry: [[row for row in rows_json if any(row)]]. *)
Definition json_rows (cells : list Cell) : list (list string) :=
  List.filter any (rows_json_of cells).

(** ** [table_to_html] *)

(** [cell.text.replace("\n", " ").strip()] *)
Definition html_text (t : string) : string :=
  PyStr.strip (PyStr.replace_nl t).

(** The body of the first loop: [rows[row][col] = text] on a
    [defaultdict(dict)]. *)
Definition rows_step (rows : gmap nat (gmap nat string)) (cell : Cell)
  : gmap nat (gmap nat string) :=
  let row := row_number cell in
  let col := column_number cell in
  <[row := <[col := html_text (text cell)]> (default ∅ (rows !! row))]> rows.

Definition rows_of (cells : list Cell) : gmap nat (gmap nat string) :=
  foldl rows_step ∅ cells.

(** [sorted(d.keys())] for integer keys. *)
Definition sorted_keys {V} (d : gmap nat V) : list nat :=
  merge_sort Nat.le (map_to_list d).*1.

Definition html_open : string :=
  "<table border='1' cellspacing='0' cellpadding='5' style='border-collapse: collapse; margin-bottom: 20px;'>"
  +:+ PyStr.nl.

(** One [<td>] line, [f"    <td>{rows[r].get(c, '')}</td>\n"]. *)
Definition td_line (row : gmap nat string) (c : nat) : string :=
  "    <td>" +:+ default "" (row !! c) +:+ "</td>" +:+ PyStr.nl.

(** The inner loop appends one [<td>] line per sorted column. *)
Definition emit_row (html : string) (row : gmap nat string) : string :=
  let html1 := html +:+ "  <tr>" +:+ PyStr.nl in
  let html2 := foldl (λ h c, h +:+ td_line row c) html1 (sorted_keys row) in
  html2 +:+ "  </tr>" +:+ PyStr.nl.

(** The rendering of the dictionary [rows]. *)
Definition render (rows : gmap nat (gmap nat string)) : string :=
  let html := foldl (λ h r, emit_row h (default ∅ (rows !! r)))
                    html_open (sorted_keys rows) in
  html +:+ "</table>" +:+ PyStr.nl.

Definition table_to_html (cells : list Cell) : string :=
  render (rows_of cells).

(** ** pathlib on POSIX *)
Module PurePath.

Definition SEP : ascii := ascii_of_nat 47.
Definition DOT : ascii := ascii_of_nat 46.
Definition sep : string := String SEP EmptyString.
Definition dot : string := String DOT EmptyString.

(** A parsed path: the root ([""], ["/"] or ["//"]) and the components. *)
Record t := mk { root : string; tail : list string }.

(** [s.split(c)] for a separator of one character. *)
Fixpoint split (c : ascii) (s : string) : list string :=
  match s with
  | EmptyString => [EmptyString]
  | String a s' =>
      if Ascii.eqb a c then EmptyString :: split c s'
      else match split c s' with
           | x :: xs => String a x :: xs
           | [] => [String a EmptyString]
           end
  end.

(** [c.join(l)] *)
Fixpoint join (c : string) (l : list string) : string :=
  match l with
  | [] => ""
  | [x] => x
  | x :: l' => x +:+ c +:+ join c l'
  end.

(** [posixpath.splitroot], without the drive, which is always empty:
    one slash or three and more give the root ["/"], exactly two give
    ["//"]. *)
Definition splitroot (p : string) : string * string :=
  match p with
  | EmptyString => ("", p)
  | String a p1 =>
      if negb (Ascii.eqb a SEP) then ("", p)
      else match p1 with
           | EmptyString => ("/", p1)
           | String b p2 =>
               if negb (Ascii.eqb b SEP) then ("/", p1)
               else match p2 with
                    | EmptyString => ("//", p2)
                    | String c _ =>
                        if Ascii.eqb c SEP then ("/", p1) else ("//", p2)
                    end
           end
  end.

(** A component that parsing keeps: not empty and not ["."]. *)
Definition kept (x : string) : Prop := x ≠ "" ∧ x ≠ dot.

(** [Path(s)] *)
Definition Path (path : string) : t :=
  if decide (path = "") then mk "" []
  else let '(root, rel) := splitroot path in
       mk root (filter kept (split SEP rel)).

(** [str(p)] *)
Definition to_str (p : t) : string :=
  let s := root p +:+ join sep (tail p) in
  if decide (s = "") then dot else s.

(** [p.name] *)
Definition name (p : t) : string := default "" (last (tail p)).

(** [s.rfind(c)]; [None] stands for -1. *)
Fixpoint rfind (c : ascii) (s : string) : option nat :=
  match s with
  | EmptyString => None
  | String a s' =>
      match rfind c s' with
      | Some i => Some (S i)
      | None => if Ascii.eqb a c then Some 0 else None
      end
  end.

(** The index of the dot that starts the suffix of a name: it is neither the
    first nor the last character. *)
Definition suffix_index (name : string) : option nat :=
  match rfind DOT name with
  | Some i => if (0 <? i) && (i <? String.length name - 1) then Some i else None
  | None => None
  end.

(** [p.suffix] *)
Definition suffix (p : t) : string :=
  match suffix_index (name p) with
  | Some i => substring i (String.length (name p) - i) (name p)
  | None => ""
  end.

(** [p.stem] *)
Definition stem (p : t) : string :=
  match suffix_index (name p) with
  | Some i => substring 0 i (name p)
  | None => name p
  end.

(** [s.startswith("/")] and [s.endswith("/")] *)
Definition starts_with_sep (s : string) : bool :=
  match s with String a _ => Ascii.eqb a SEP | EmptyString => false end.

Definition ends_with_sep (s : string) : bool :=
  match PyStr.last_char s with Some a => Ascii.eqb a SEP | None => false end.

(** [posixpath.join(a, b)] *)
Definition posix_join (a b : string) : string :=
  if starts_with_sep b then b
  else if negb (PyStr.truthy a) || ends_with_sep a then a +:+ b
  else a +:+ sep +:+ b.

(** [p / key] *)
Definition truediv (p : t) (key : string) : t :=
  Path (posix_join (to_str p) key).

(** [p.absolute()], with the working directory of the process. *)
Definition absolute (cwd : string) (p : t) : t :=
  if PyStr.truthy (root p) then p else Path (posix_join cwd (to_str p)).

End PurePath.

Infix "/:" := PurePath.truediv (at level 40, left associativity).

(** ** Configuration *)
Definition OUTPUT_DIR : PurePath.t := PurePath.Path "output".
Definition TEMP_DIR : PurePath.t := PurePath.Path "temp_processing".

(** ** Effects *)

(** JSON-compatible values, as [structured_data] holds them. *)
Inductive json :=
| JNull
| JInt (n : Z)
| JStr (s : string)
| JList (l : list json)
| JDict (d : gmap string json).

(** What the program does to the outside world.  Each conversion of
    [to_pdf] is one event, and so is the drawing and saving of a page image;
    the steps inside them are not told apart. *)
Inductive event :=
| Print (line : string)
| Soffice (outdir src : string)
| BrowserPdf (url out : string)
| Img2Pdf (src out : string)
| TextPdf (src out : string)
| GetAnalyzer
| Analyze (path : string)
| ResetState
| SaveFigure (path : string).

(** Exceptions; [ValueError] is the one the program raises itself, the
    others come from the libraries. *)
Inductive exn :=
| ValueError (msg : string)
| LibraryError (msg : string).

(** [str(e)] *)
Definition exn_str (e : exn) : string :=
  match e with ValueError msg | LibraryError msg => msg end.

(** A computation: the events so far, and an exception or a value. *)
Definition M (A : Type) : Type := list event * (exn + A).

#[global] Instance M_ret : MRet M := λ A x, ([], inr x).
#[global] Instance M_bind : MBind M := λ A B f m,
  match m.2 with
  | inl e => (m.1, inl e)
  | inr x => (m.1 ++ (f x).1, (f x).2)
  end.

Definition raise {A} (e : exn) : M A := ([], inl e).
Definition print (line : string) : M unit := ([Print line], inr tt).

(** ** The engine and the other collaborators *)

Record BoundingBox := mkBBox { get_export : json }.

Module Item.
(** A layout item: text, title, list or figure. *)
Record t := mk { text : option string; bbox : option BoundingBox }.
End Item.

Module Table.
Record t := mk { cells : list Cell; bbox : option BoundingBox }.
End Table.

Module Page.
Record t := mk {
  page_number : Z;
  get_layout_items : string → list Item.t;
  tables : list Table.t;
  get_layouts : string → list Item.t
}.
End Page.

(** The world outside: which external call raises, the working directory,
    and the pages the engine reports for a PDF. *)
Record Env := mkEnv {
  fails : event → option exn;
  getcwd : string;
  pages_of : string → list Page.t
}.

(** An external call: the event happens, and the call may raise. *)
Definition call (env : Env) (e : event) : M unit :=
  ([e], match fails env e with Some x => inl x | None => inr tt end).

(** ** [UniversalConverter.to_pdf] *)
Definition to_pdf (env : Env) (input_path : string) : M string :=
  let input_path := PurePath.Path input_path in
  let ext := PyStr.lower (PurePath.suffix input_path) in
  let output_pdf := TEMP_DIR /: (PurePath.stem input_path +:+ ".pdf") in
  print ("[*] Converting " +:+ ext +:+ " to PDF...") ;;
  if decide (ext = ".pdf") then mret (PurePath.to_str input_path)
  else
    (if decide (ext ∈ [".docx"; ".pptx"; ".xlsx"]) then
       call env (Soffice (PurePath.to_str TEMP_DIR) (PurePath.to_str input_path))
     else if decide (ext = ".html") then
       call env (BrowserPdf
                   ("file://" +:+ PurePath.to_str
                                    (PurePath.absolute (getcwd env) input_path))
                   (PurePath.to_str output_pdf))
     else if decide (ext ∈ [".png"; ".jpg"; ".jpeg"]) then
       call env (Img2Pdf (PurePath.to_str input_path) (PurePath.to_str output_pdf))
     else if decide (ext = ".txt") then
       call env (TextPdf (PurePath.to_str input_path) (PurePath.to_str output_pdf))
     else raise (ValueError ("Unsupported file format: " +:+ ext))) ;;
    mret (PurePath.to_str output_pdf).

(** ** The page loop of [main] *)

(** [x.bbox.get_export() if x.bbox else None] *)
Definition bbox_json (bbox : option BoundingBox) : json :=
  match bbox with Some b => get_export b | None => JNull end.

(** [x.text.strip() if x.text else ""] on a text that may be absent. *)
Definition item_text (t : option string) : string :=
  match t with Some t => json_text t | None => "" end.

(** [{"text": ..., "bbox": ...}] *)
Definition layout_entry (block : Item.t) : json :=
  JDict {[ "text" := JStr (item_text (Item.text block));
           "bbox" := bbox_json (Item.bbox block) ]}.

(** [d[key].append(x)] *)
Definition dict_append (key : string) (x : json) (d : gmap string json)
  : gmap string json :=
  alter (λ v, match v with JList l => JList (l ++ [x]) | _ => v end) key d.

(** [enumerate(l, start=1)] *)
Definition enumerate1 {A} (l : list A) : list (Z * A) :=
  imap (λ i x, (Z.of_nat (S i), x)) l.

(** The body of [for idx, table in enumerate(page.tables, start=1)]; the
    state is [all_tables_html] and [page_entry]. *)
Definition table_step (page_num : Z)
    (st : list string * gmap string json) (it : Z * Table.t)
  : list string * gmap string json :=
  let '(all_tables_html, page_entry) := st in
  let '(idx, table) := it in
  let table_html := table_to_html (Table.cells table) in
  let wrapped_html :=
    "<h3>Page " +:+ pretty page_num +:+ " - Table " +:+ pretty idx +:+ "</h3>"
    +:+ table_html in
  (all_tables_html ++ [wrapped_html],
   dict_append "tables"
     (JDict {[ "table_index" := JInt idx;
               "rows" := JList ((λ row, JList (JStr <$> row))
                                <$> json_rows (Table.cells table));
               "bbox" := bbox_json (Table.bbox table) ]})
     page_entry).

(** [{"figure_index": ..., "bbox": ...}] *)
Definition figure_entry (it : Z * Item.t) : json :=
  JDict {[ "figure_index" := JInt it.1; "bbox" := bbox_json (Item.bbox it.2) ]}.

(** The body of [for page in df]; the state is [all_tables_html] and the
    list [structured_data["pages"]]. *)
Definition page_step (env : Env) (st : list string * list json)
    (page : Page.t) : M (list string * list json) :=
  let '(all_tables_html, pages) := st in
  let page_num := Page.page_number page in
  print ("[+] Processing page " +:+ pretty page_num) ;;
  call env (SaveFigure
              (PurePath.to_str
                 (OUTPUT_DIR /: ("page_" +:+ pretty page_num +:+ ".png")))) ;;
  let page_entry : gmap string json :=
    {[ "page_number" := JInt page_num;
       "texts" := JList [];
       "tables" := JList [];
       "titles" := JList [];
       "lists" := JList [];
       "figures" := JList [] ]} in
  let page_entry :=
    foldl (λ d block, dict_append "texts" (layout_entry block) d)
          page_entry (Page.get_layout_items page "text") in
  let page_entry :=
    foldl (λ d t, dict_append "titles" (layout_entry t) d)
          page_entry (Page.get_layout_items page "title") in
  let page_entry :=
    foldl (λ d lst, dict_append "lists" (layout_entry lst) d)
          page_entry (Page.get_layout_items page "list") in
  let '(all_tables_html, page_entry) :=
    if decide (Page.tables page ≠ []) then
      foldl (table_step page_num) (all_tables_html, page_entry)
            (enumerate1 (Page.tables page))
    else (all_tables_html, page_entry) in
  let page_entry :=
    foldl (λ d it, dict_append "figures" (figure_entry it) d)
          page_entry (enumerate1 (Page.get_layouts page "figure")) in
  mret (all_tables_html, pages ++ [JDict page_entry]).

(** A monadic loop, [for x in l: st = step(st, x)]. *)
Fixpoint for_each {A S} (step : S → A → M S) (st : S) (l : list A) : M S :=
  match l with
  | [] => mret st
  | x :: l' => st' ← step st x; for_each step st' l'
  end.

(** ** [main] *)

(** [main] with [INPUT_FILE] as its argument.  It gives [None] when it
    returns after a failed conversion, and otherwise [structured_data] and
    [all_tables_html] as they are when the loop is over. *)
Definition main (env : Env) (INPUT_FILE : string)
  : M (option (json * list string)) :=
  match to_pdf env INPUT_FILE with
  | (trace, inl e) =>
      (trace, inr tt) ;;
      print ("Error during conversion: " +:+ exn_str e) ;;
      mret None
  | (trace, inr final_pdf_path) =>
      (trace, inr tt) ;;
      print "[*] Creating DeepDoctection analyzer..." ;;
      call env GetAnalyzer ;;
      print "[*] Analyzing Document..." ;;
      call env (Analyze final_pdf_path) ;;
      call env ResetState ;;
      '(all_tables_html, pages) ←
        for_each (page_step env) ([], []) (pages_of env final_pdf_path);
      (* the check mark of the last line is written as its UTF-8 bytes *)
      print (PyStr.nl +:+ "✅ Done!") ;;
      mret (Some (JDict {[ "pages" := JList pages ]}, all_tables_html))
  end.

(** The events of the layout engine. *)
Definition engine_event (e : event) : Prop :=
  e = GetAnalyzer ∨ (∃ path, e = Analyze path) ∨ e = ResetState.

(** ** Notions of the statements *)

(** The largest row and column index among the cells. *)
Definition max_row_index (cells : list Cell) : nat :=
  max_list (row_number <$> cells).
Definition max_col_index (cells : list Cell) : nat :=
  max_list (column_number <$> cells).

(** The cells of row [r], in enumeration order. *)
Definition cells_of_row (r : nat) (cells : list Cell) : list Cell :=
  filter (λ cell, row_number cell = r) cells.

(** One more than the largest column index in row [r]; 0 for a row index
    that no cell carries. *)
Definition row_width (cells : list Cell) (r : nat) : nat :=
  max_list (S ∘ column_number <$> cells_of_row r cells).

(** The cell that wrote last at a coordinate. *)
Definition last_at (rc : nat * nat) (cells : list Cell) : option Cell :=
  last (filter (λ cell, coord cell = rc) cells).

(** The string at [(r, c)] of a list of rows. *)
Definition grid_at (g : list (list string)) (r c : nat) : option string :=
  g !! r ≫= (.!! c).

(** The string at [(r, c)] of the dictionary of rows. *)
Definition rows_at (rows : gmap nat (gmap nat string)) (r c : nat)
  : option string :=
  rows !! r ≫= (.!! c).

(** The height of the grid: one more than every row index seen. *)
Definition grid_height (cells : list Cell) : nat :=
  max_list (S ∘ row_number <$> cells).

(** The grid after the loop, row by row and position by position. *)
Definition grid_spec (cells : list Cell) (g : list (list string)) : Prop :=
  length g = grid_height cells ∧
  ∀ r, r < grid_height cells →
    ∃ row, g !! r = Some row ∧ length row = row_width cells r ∧
      ∀ c, c < row_width cells r →
        row !! c
        = Some (default "" (json_text ∘ text <$> last_at (r, c) cells)).

(** Concatenation of a list of strings, [''.join(l)]. *)
Definition concat_str (l : list string) : string := foldr String.append "" l.

(** What [table_to_html] prints, as data: the row indices in the order of
    emission, each with its column indices and texts in that order. *)
Definition row_items (row : gmap nat string) : list (nat * string) :=
  (λ c, (c, default "" (row !! c))) <$> sorted_keys row.

Definition html_layout (rows : gmap nat (gmap nat string))
  : list (nat * list (nat * string)) :=
  (λ r, (r, row_items (default ∅ (rows !! r)))) <$> sorted_keys rows.

Definition td_element (t : string) : string :=
  "    <td>" +:+ t +:+ "</td>" +:+ PyStr.nl.

Definition tr_element (items : list (nat * string)) : string :=
  "  <tr>" +:+ PyStr.nl
  +:+ concat_str (td_element ∘ snd <$> items)
  +:+ "  </tr>" +:+ PyStr.nl.

Definition print_layout (lay : list (nat * list (nat * string))) : string :=
  html_open +:+ concat_str (tr_element ∘ snd <$> lay)
  +:+ "</table>" +:+ PyStr.nl.

(** The extensions that [to_pdf] knows. *)
Definition recognised : list string :=
  [".pdf"; ".docx"; ".pptx"; ".xlsx"; ".html"; ".png"; ".jpg"; ".jpeg"; ".txt"].

(** The character [c] is in [s]. *)
Fixpoint has_char (c : ascii) (s : string) : bool :=
  match s with
  | EmptyString => false
  | String a s' => Ascii.eqb a c || has_char c s'
  end.

(** The paths that parsing gives: the root is one of three, and a component
    is not empty, not ["."] and without a slash. *)
Definition component_ok (x : string) : Prop :=
  PurePath.kept x ∧ has_char PurePath.SEP x = false.

Definition wf_path (p : PurePath.t) : Prop :=
  PurePath.root p ∈ [""; "/"; "//"] ∧ Forall component_ok (PurePath.tail p).

(** The five categories of a page record, and how many items of each the
    engine reports for a page. *)
Definition categories : list string :=
  ["texts"; "titles"; "lists"; "tables"; "figures"].

Definition detected (page : Page.t) (key : string) : nat :=
  if decide (key = "texts") then length (Page.get_layout_items page "text")
  else if decide (key = "titles") then length (Page.get_layout_items page "title")
  else if decide (key = "lists") then length (Page.get_layout_items page "list")
  else if decide (key = "tables") then length (Page.tables page)
  else if decide (key = "figures") then length (Page.get_layouts page "figure")
  else 0.

(** Under [key] the dictionary holds a list of [n] values. *)
Definition list_len_at (d : gmap string json) (key : string) (n : nat) : Prop :=
  ∃ l, d !! key = Some (JList l) ∧ length l = n.

(** [entry] is a record of [page]: a dictionary with the page number and,
    under each of the five categories, a list with one value per item. *)
Definition page_record (page : Page.t) (entry : json) : Prop :=
  ∃ d, entry = JDict d ∧
       d !! "page_number" = Some (JInt (Page.page_number page)) ∧
       ∀ key, key ∈ categories → list_len_at d key (detected page key).

(** A world in which no call fails and the engine reports the two pages of
    the end-to-end example: a text block on the first page, a table of two
    rows and two columns and a figure on the second. *)
Definition sample_pages : list Page.t :=
  [Page.mk 1
     (λ c, if decide (c = "text") then [Item.mk (Some "Hello") None] else [])
     [] (λ _, []);
   Page.mk 2 (λ _, [])
     [Table.mk [mkCell 0 0 "A"; mkCell 0 1 "B"; mkCell 1 0 "C"; mkCell 1 1 "D"]
               None]
     (λ c, if decide (c = "figure")
           then [Item.mk None (Some (mkBBox (JList [JInt 0; JInt 0; JInt 9; JInt 9])))]
           else [])].

Definition sample_env : Env :=
  mkEnv (λ _, None) "/work" (λ _, sample_pages).

(** The indices of the rows of a grid in which some string is not empty. *)
Definition text_rows (g : list (list string)) : list nat :=
  filter (λ r, Is_true (any (default [] (g !! r)))) (seq 0 (length g)).

(** The events of one turn of the page loop. *)
Definition page_events (page : Page.t) : list event :=
  [Print ("[+] Processing page " +:+ pretty (Page.page_number page));
   SaveFigure
     (PurePath.to_str
        (OUTPUT_DIR /: ("page_" +:+ pretty (Page.page_number page) +:+ ".png")))].

(** The HTML fragment of the table numbered [it.1] of a page. *)
Definition wrapped_table_html (page_num : Z) (it : Z * Table.t) : string :=
  "<h3>Page " +:+ pretty page_num +:+ " - Table " +:+ pretty it.1 +:+ "</h3>"
  +:+ table_to_html (Table.cells it.2).

(** The fragments of the tables of a page, in the order of detection. *)
Definition page_tables_html (page : Page.t) : list string :=
  wrapped_table_html (Page.page_number page) <$> enumerate1 (Page.tables page).

(** The JSON entry of the table numbered [it.1]. *)
Definition table_entry (it : Z * Table.t) : json :=
  JDict {[ "table_index" := JInt it.1;
           "rows" := JList ((λ row, JList (JStr <$> row))
                            <$> json_rows (Table.cells it.2));
           "bbox" := bbox_json (Table.bbox it.2) ]}.

(** The five lists of the record of a page, item by item. *)
Definition page_contents (page : Page.t) (d : gmap string json) : Prop :=
  d !! "texts"
  = Some (JList (layout_entry <$> Page.get_layout_items page "text")) ∧
  d !! "titles"
  = Some (JList (layout_entry <$> Page.get_layout_items page "title")) ∧
  d !! "lists"
  = Some (JList (layout_entry <$> Page.get_layout_items page "list")) ∧
  d !! "tables"
  = Some (JList (table_entry <$> enumerate1 (Page.tables page))) ∧
  d !! "figures"
  = Some (JList (figure_entry <$> enumerate1 (Page.get_layouts page "figure"))).

(** An event that is a call of a collaborator, not a line printed. *)
Definition external (ev : event) : Prop := ∀ line, ev ≠ Print line.

(** Every call in the trace went well. *)
Definition calls_succeeded (env : Env) (trace : list event) : Prop :=
  ∀ ev, ev ∈ trace → external ev → fails env ev = None.

(** A world in which the office converter exits with an error. *)
Definition failing_env : Env :=
  mkEnv (λ ev, match ev with
               | Soffice _ _ =>
                   Some (LibraryError "Command returned non-zero exit status 1.")
               | _ => None
               end)
        "/work" (λ _, sample_pages).

(** * Proofs *)

(** ** The growing loops *)
Section Grow.
Context {A : Type}.
Implicit Types (x : A) (l : list A).

Lemma append_times_replicate k x l :
  append_times k x l = l ++ replicate k x.
Proof.
  revert l; induction k as [|k IH]; intros l; simpl.
  - by rewrite app_nil_r.
  - rewrite IH, <- app_assoc. done.
Qed.

Lemma grow_replicate x l i :
  grow x l i = l ++ replicate (S i - length l) x.
Proof. apply append_times_replicate. Qed.

Lemma grow_length x l i : length (grow x l i) = length l `max` S i.
Proof. rewrite grow_replicate, length_app, length_replicate. lia. Qed.

Lemma grow_lookup_old x l i j :
  j < length l → grow x l i !! j = l !! j.
Proof. intros. rewrite grow_replicate. by apply lookup_app_l. Qed.

Lemma grow_lookup_new x l i j :
  length l ≤ j → j ≤ i → grow x l i !! j = Some x.
Proof.
  intros. rewrite grow_replicate, lookup_app_r by done.
  apply lookup_replicate_2. lia.
Qed.

Lemma grow_lookup_default x l i j :
  j < length l `max` S i → default x (grow x l i !! j) = default x (l !! j).
Proof.
  intros Hj. destruct (decide (j < length l)) as [Hl|Hl].
  - by rewrite grow_lookup_old.
  - rewrite grow_lookup_new by lia.
    by rewrite (lookup_ge_None_2 l j) by lia.
Qed.
End Grow.

(** ** The JSON grid *)
Section Grid.
Implicit Types (g : list (list string)) (cell : Cell) (cells : list Cell).

Lemma filter_none {A} (P : A → Prop) `{∀ x, Decision (P x)} (l : list A) :
  (∀ x, x ∈ l → ¬ P x) → filter P l = [].
Proof.
  induction l as [|x l IH]; intros Hl; [done|].
  rewrite filter_cons_False by (apply Hl; left).
  apply IH. intros y Hy. apply Hl. by right.
Qed.

Lemma max_list_app (l k : list nat) :
  max_list (l ++ k) = max_list l `max` max_list k.
Proof. induction l as [|n l IH]; simpl; [done|]. rewrite IH. lia. Qed.

Lemma max_list_le (l : list nat) n :
  (∀ m, m ∈ l → m ≤ n) → max_list l ≤ n.
Proof.
  induction l as [|m l IH]; intros Hl; simpl; [lia|].
  apply Nat.max_lub; [apply Hl; left|]. apply IH. intros k Hk. apply Hl. by right.
Qed.

Lemma max_row_index_snoc cells cell :
  max_row_index (cells ++ [cell])
  = max_row_index cells `max` row_number cell.
Proof.
  unfold max_row_index. rewrite fmap_app, max_list_app. simpl. lia.
Qed.

Lemma row_width_snoc cells cell r :
  row_width (cells ++ [cell]) r
  = if decide (row_number cell = r)
    then row_width cells r `max` S (column_number cell)
    else row_width cells r.
Proof.
  unfold row_width, cells_of_row.
  rewrite filter_app, fmap_app, max_list_app.
  rewrite filter_cons, filter_nil.
  destruct (decide (row_number cell = r)); simpl; lia.
Qed.

Lemma last_at_snoc rc cells cell :
  last_at rc (cells ++ [cell])
  = if decide (coord cell = rc) then Some cell else last_at rc cells.
Proof.
  unfold last_at. rewrite filter_app, filter_cons, filter_nil.
  destruct (decide (coord cell = rc)).
  - apply last_snoc.
  - by rewrite app_nil_r.
Qed.

Lemma grid_height_snoc cells cell :
  grid_height (cells ++ [cell]) = grid_height cells `max` S (row_number cell).
Proof.
  unfold grid_height. rewrite fmap_app, max_list_app. simpl. lia.
Qed.

Lemma grid_height_max_row cells :
  cells ≠ [] → grid_height cells = S (max_row_index cells).
Proof.
  unfold grid_height, max_row_index.
  induction cells as [|cell cells IH]; [done|]; intros _.
  destruct cells as [|cell' cells]; simpl in *; [lia|].
  rewrite IH by done. lia.
Qed.

Lemma rows_json_step_length g cell :
  length (rows_json_step g cell) = length g `max` S (row_number cell).
Proof.
  unfold rows_json_step. by rewrite length_insert, grow_length.
Qed.

(** The row that the step writes. *)
Lemma rows_json_step_lookup_eq g cell :
  rows_json_step g cell !! row_number cell
  = Some (<[column_number cell := json_text (text cell)]>
            (grow "" (default [] (g !! row_number cell))
                  (column_number cell))).
Proof.
  unfold rows_json_step.
  rewrite list_lookup_insert_eq by (rewrite grow_length; lia).
  do 3 f_equal. rewrite list_lookup_total_alt.
  apply (grow_lookup_default [] g). lia.
Qed.

(** The other rows are the old ones, or fresh empty rows. *)
Lemma rows_json_step_lookup_ne g cell r :
  r ≠ row_number cell → r < length g `max` S (row_number cell) →
  rows_json_step g cell !! r = Some (default [] (g !! r)).
Proof.
  intros Hne Hlt. unfold rows_json_step.
  rewrite list_lookup_insert_ne by done.
  destruct (decide (r < length g)) as [Hl|Hl].
  - rewrite grow_lookup_old by done.
    destruct (lookup_lt_is_Some_2 g r Hl) as [row ->]. done.
  - rewrite grow_lookup_new by lia.
    by rewrite (lookup_ge_None_2 g r) by lia.
Qed.

(** Writing column [c] of a row grown up to it. *)
Lemma written_row_length (row : list string) c t :
  length (<[c := t]> (grow "" row c)) = length row `max` S c.
Proof. by rewrite length_insert, grow_length. Qed.

Lemma written_row_lookup (row : list string) c t c' :
  c' < length row `max` S c →
  <[c := t]> (grow "" row c) !! c'
  = Some (if decide (c = c') then t else default "" (row !! c')).
Proof.
  intros Hlt. destruct (decide (c = c')) as [->|Hne].
  - apply list_lookup_insert_eq. rewrite grow_length. lia.
  - rewrite list_lookup_insert_ne by done.
    destruct (decide (c' < length row)) as [Hl|Hl].
    + rewrite grow_lookup_old by done.
      destruct (lookup_lt_is_Some_2 row c' Hl) as [s ->]. done.
    + rewrite grow_lookup_new by lia.
      by rewrite (lookup_ge_None_2 row c') by lia.
Qed.

Lemma rows_json_of_spec cells : grid_spec cells (rows_json_of cells).
Proof.
  unfold rows_json_of.
  induction cells as [|cell cells IH] using rev_ind.
  { split; [done|]. intros r Hr. unfold grid_height in Hr. simpl in Hr. lia. }
  rewrite foldl_snoc. destruct IH as [Hlen Hrows].
  set (g := foldl rows_json_step [] cells) in *.
  split.
  { by rewrite rows_json_step_length, grid_height_snoc, Hlen. }
  intros r Hr. rewrite grid_height_snoc in Hr.
  assert (Hold : ∃ row, default [] (g !! r) = row ∧
            length row = row_width cells r ∧
            ∀ c, c < row_width cells r →
              row !! c
              = Some (default "" (json_text ∘ text <$> last_at (r, c) cells))).
  { destruct (decide (r < grid_height cells)) as [Hl|Hl].
    - destruct (Hrows r Hl) as (row & -> & ? & ?). by exists row.
    - exists []. rewrite (lookup_ge_None_2 g r) by lia.
      split; [done|].
      assert (row_width cells r = 0) as ->; [|split; [done|lia]].
      unfold row_width, cells_of_row.
      assert (Hnil : filter (λ cell, row_number cell = r) cells = []);
        [|by rewrite Hnil].
      apply filter_none. intros x Hx Hrx.
      apply Hl. unfold grid_height.
      assert (S r ≤ max_list (S ∘ row_number <$> cells)); [|lia].
      apply max_list_elem_of_le, list_elem_of_fmap. exists x. by subst. }
  destruct Hold as (row & Hrow & Hw & Hc).
  rewrite row_width_snoc.
  destruct (decide (row_number cell = r)) as [<-|Hne].
  - eexists. split; [apply rows_json_step_lookup_eq|].
    rewrite Hrow, written_row_length, Hw. split; [done|].
    intros c Hlt. rewrite written_row_lookup by lia.
    rewrite last_at_snoc. unfold coord. f_equal.
    destruct (decide (column_number cell = c)) as [<-|Hc'].
    + by rewrite decide_True.
    + rewrite decide_False by congruence.
      destruct (decide (c < row_width cells (row_number cell))) as [Hin|Hout].
      * by rewrite Hc.
      * rewrite lookup_ge_None_2 by lia. simpl.
        assert (last_at (row_number cell, c) cells = None) as ->; [|done].
        unfold last_at. apply last_None, filter_none.
        intros x Hx [= Hxr Hxc]. apply Hout.
        unfold row_width.
        assert (S c ≤ max_list (S ∘ column_number
                                <$> cells_of_row (row_number cell) cells));
          [|lia].
        apply max_list_elem_of_le, list_elem_of_fmap. exists x.
        split; [simpl; lia|].
        apply list_elem_of_filter. done.
  - eexists. split.
    { apply rows_json_step_lookup_ne; [done|]. rewrite Hlen. lia. }
    rewrite Hrow. split; [done|]. intros c Hlt.
    rewrite last_at_snoc, decide_False; [by apply Hc|].
    unfold coord. congruence.
Qed.
End Grid.

(** ** Strings *)
Section Strings.
Implicit Types (s t u : string).

Lemma string_app_cons a s t : String a s +:+ t = String a (s +:+ t).
Proof. reflexivity. Qed.

Lemma string_app_nil_l s : "" +:+ s = s.
Proof. reflexivity. Qed.

Lemma string_app_assoc s t u : (s +:+ t) +:+ u = s +:+ t +:+ u.
Proof.
  induction s as [|a s IH]; [done|]. by rewrite !string_app_cons, IH.
Qed.

Lemma string_app_nil_r s : s +:+ "" = s.
Proof.
  induction s as [|a s IH]; [done|]. by rewrite string_app_cons, IH.
Qed.

Lemma concat_str_cons s (l : list string) :
  concat_str (s :: l) = s +:+ concat_str l.
Proof. done. Qed.

Lemma concat_str_app (l k : list string) :
  concat_str (l ++ k) = concat_str l +:+ concat_str k.
Proof.
  induction l as [|x l IH]; [done|].
  rewrite <- app_comm_cons, !concat_str_cons, IH.
  by rewrite string_app_assoc.
Qed.

(** A loop of [h += f(x)] appends the concatenation of the pieces. *)
Lemma foldl_append {A} (step : string → A → string) (f : A → string)
    (l : list A) h :
  (∀ h x, step h x = h +:+ f x) →
  foldl step h l = h +:+ concat_str (f <$> l).
Proof.
  intros Hstep. revert h; induction l as [|x l IH]; intros h.
  - simpl. by rewrite string_app_nil_r.
  - rewrite fmap_cons, concat_str_cons. cbn [foldl].
    by rewrite IH, Hstep, string_app_assoc.
Qed.

Lemma occurs_in_refl s : PyStr.occurs_in s s.
Proof. exists "", "". by rewrite string_app_nil_l, string_app_nil_r. Qed.

Lemma occurs_in_app_l s t u : PyStr.occurs_in s t → PyStr.occurs_in s (t +:+ u).
Proof.
  intros (pre & post & ->). exists pre, (post +:+ u).
  by rewrite !string_app_assoc.
Qed.

Lemma occurs_in_app_r s t u : PyStr.occurs_in s t → PyStr.occurs_in s (u +:+ t).
Proof.
  intros (pre & post & ->). exists (u +:+ pre), post.
  by rewrite !string_app_assoc.
Qed.

Lemma occurs_in_concat_str s t (l : list string) :
  t ∈ l → PyStr.occurs_in s t → PyStr.occurs_in s (concat_str l).
Proof.
  induction 1 as [t l|t x l _ IH]; intros Hs; rewrite concat_str_cons.
  - by apply occurs_in_app_l.
  - by apply occurs_in_app_r, IH.
Qed.
End Strings.

(** ** The dictionary of rows and its rendering *)
Section Html.
Implicit Types (rows : gmap nat (gmap nat string)) (row : gmap nat string).
Implicit Types (cell : Cell) (cells : list Cell).

Lemma rows_at_step rows cell r c :
  rows_at (rows_step rows cell) r c
  = if decide (coord cell = (r, c)) then Some (html_text (text cell))
    else rows_at rows r c.
Proof.
  unfold rows_at, rows_step, coord.
  destruct (decide (row_number cell = r)) as [<-|Hr].
  - rewrite lookup_insert_eq. simpl.
    destruct (decide (column_number cell = c)) as [<-|Hc].
    + by rewrite lookup_insert_eq, decide_True.
    + rewrite lookup_insert_ne by done.
      rewrite decide_False by congruence.
      by destruct (rows !! row_number cell).
  - rewrite lookup_insert_ne by done.
    by rewrite decide_False by congruence.
Qed.

Lemma rows_step_dom rows cell :
  dom (rows_step rows cell) = {[row_number cell]} ∪ dom rows.
Proof. unfold rows_step. apply dom_insert_L. Qed.

(** No row of the dictionary is ever empty. *)
Lemma rows_step_inhabited rows cell :
  (∀ r row, rows !! r = Some row → row ≠ ∅) →
  ∀ r row, rows_step rows cell !! r = Some row → row ≠ ∅.
Proof.
  intros Hne r row. unfold rows_step.
  destruct (decide (row_number cell = r)) as [<-|Hr].
  - rewrite lookup_insert_eq. intros [= <-]. apply insert_non_empty.
  - rewrite lookup_insert_ne by done. apply Hne.
Qed.

Lemma rows_at_rows_of cells r c :
  rows_at (rows_of cells) r c = html_text ∘ text <$> last_at (r, c) cells.
Proof.
  unfold rows_of. induction cells as [|cell cells IH] using rev_ind; [done|].
  rewrite foldl_snoc, rows_at_step, last_at_snoc, IH.
  by destruct (decide (coord cell = (r, c))).
Qed.

Lemma rows_of_dom cells r :
  r ∈ dom (rows_of cells) ↔ ∃ cell, cell ∈ cells ∧ row_number cell = r.
Proof.
  unfold rows_of. induction cells as [|cell cells IH] using rev_ind.
  { simpl. rewrite dom_empty_L. split; [set_solver|].
    intros (cell & Hin & _). by apply elem_of_nil in Hin. }
  rewrite foldl_snoc, rows_step_dom, elem_of_union, elem_of_singleton, IH.
  split.
  - intros [->|(x & Hx & <-)].
    + exists cell. split; [|done]. apply elem_of_app. right. by left.
    + exists x. split; [|done]. apply elem_of_app. by left.
  - intros (x & Hx & <-). apply elem_of_app in Hx as [Hx|Hx].
    + right. by exists x.
    + left. apply list_elem_of_singleton in Hx. by subst.
Qed.

Lemma last_at_is_Some rc cells :
  is_Some (last_at rc cells) ↔ ∃ cell, cell ∈ cells ∧ coord cell = rc.
Proof.
  unfold last_at. split.
  - intros [cell Hcell]. exists cell.
    apply last_Some_elem_of, list_elem_of_filter in Hcell. tauto.
  - intros (cell & Hin & Hrc).
    destruct (last _) as [x|] eqn:Hlast; [by eexists|].
    apply last_None in Hlast.
    exfalso. by eapply (filter_nil_not_elem_of _ _ cell), Hin.
Qed.

(** [sorted(d.keys())] is strictly ascending and holds the keys. *)
Lemma sorted_keys_elem_of {V} (d : gmap nat V) k :
  k ∈ sorted_keys d ↔ k ∈ dom d.
Proof.
  unfold sorted_keys. rewrite merge_sort_Permutation.
  rewrite elem_of_dom, list_elem_of_fmap. split.
  - intros ([k' v] & -> & Hkv). apply elem_of_map_to_list in Hkv. by eexists.
  - intros [v Hv]. exists (k, v). split; [done|].
    by apply elem_of_map_to_list.
Qed.

Lemma sorted_keys_NoDup {V} (d : gmap nat V) : NoDup (sorted_keys d).
Proof.
  unfold sorted_keys. rewrite merge_sort_Permutation.
  apply NoDup_fst_map_to_list.
Qed.

Lemma StronglySorted_le_NoDup_lt (l : list nat) :
  StronglySorted Nat.le l → NoDup l → StronglySorted lt l.
Proof.
  induction 1 as [|x l Hs IH Hall]; intros Hnd; [constructor|].
  apply NoDup_cons in Hnd as [Hx Hnd]. constructor; [by apply IH|].
  apply Forall_forall. intros y Hy.
  rewrite Forall_forall in Hall. specialize (Hall y Hy).
  assert (x ≠ y) by (intros ->; done). unfold Nat.le in Hall. lia.
Qed.

Lemma sorted_keys_ascending {V} (d : gmap nat V) :
  StronglySorted lt (sorted_keys d).
Proof.
  apply StronglySorted_le_NoDup_lt; [|apply sorted_keys_NoDup].
  unfold sorted_keys. apply StronglySorted_merge_sort; apply _.
Qed.

(** The two loops of [table_to_html] print the layout. *)
Lemma emit_row_tr html row :
  emit_row html row = html +:+ tr_element (row_items row).
Proof.
  unfold emit_row, tr_element, row_items.
  rewrite (foldl_append _ (td_line row)) by done.
  rewrite !string_app_assoc, <- list_fmap_compose. done.
Qed.

Lemma render_layout rows : render rows = print_layout (html_layout rows).
Proof.
  unfold render, print_layout, html_layout.
  rewrite (foldl_append _
             (λ r, tr_element (row_items (default ∅ (rows !! r)))))
    by (intros h r; apply emit_row_tr).
  rewrite !string_app_assoc, <- list_fmap_compose. done.
Qed.
End Html.

(** ** [strip] and [replace] *)
Section Strip.
Import PyStr.
Implicit Types (s t : string) (a : ascii).

Lemma lstrip_split s :
  ∃ l, s = l +:+ lstrip s ∧ all_space l = true.
Proof.
  induction s as [|a s (l & Hl & Hsp)]; [by exists ""|].
  simpl. destruct (isspace a) eqn:Ha.
  - exists (String a l). rewrite string_app_cons, <- Hl.
    split; [done|]. simpl. by rewrite Ha, Hsp.
  - by exists "".
Qed.

Lemma lstrip_first s a : first_char (lstrip s) = Some a → isspace a = false.
Proof.
  induction s as [|b s IH]; [done|]. simpl.
  destruct (isspace b) eqn:Hb; [done|]. simpl. by intros [= <-].
Qed.

Lemma rstrip_split s :
  ∃ r, s = rstrip s +:+ r ∧ all_space r = true.
Proof.
  induction s as [|a s (r & Hr & Hsp)]; [by exists ""|].
  simpl. destruct (rstrip s) as [|b t] eqn:Ht.
  - destruct (isspace a) eqn:Ha.
    + exists (String a r). rewrite string_app_nil_l in *. subst s.
      split; [done|]. simpl. by rewrite Ha, Hsp.
    + exists r. rewrite string_app_nil_l in Hr. by subst.
  - exists r. rewrite string_app_cons. split; [by f_equal|done].
Qed.

Lemma rstrip_last s a : last_char (rstrip s) = Some a → isspace a = false.
Proof.
  induction s as [|b s IH]; [done|]. simpl.
  destruct (rstrip s) as [|c t] eqn:Ht.
  - destruct (isspace b) eqn:Hb; [done|]. simpl. by intros [= <-].
  - intros Hl. apply IH. by destruct t.
Qed.

Lemma rstrip_first s a :
  first_char (rstrip s) = Some a → first_char s = Some a.
Proof.
  destruct s as [|b s]; [done|]. simpl.
  destruct (rstrip s); [destruct (isspace b)|]; done.
Qed.

(** [strip] removes a run of white space at each end, and what is left
    neither starts nor ends with white space. *)
Lemma strip_spec s :
  (∃ l r, s = l +:+ strip s +:+ r
          ∧ all_space l = true ∧ all_space r = true) ∧
  (∀ a, first_char (strip s) = Some a → isspace a = false) ∧
  (∀ a, last_char (strip s) = Some a → isspace a = false).
Proof.
  unfold strip. split; [|split].
  - destruct (lstrip_split s) as (l & Hl & Hsl).
    destruct (rstrip_split (lstrip s)) as (r & Hr & Hsr).
    exists l, r. by rewrite <- Hr, <- Hl.
  - intros a Ha. by apply (lstrip_first s), rstrip_first.
  - apply rstrip_last.
Qed.

Lemma strip_empty : strip "" = "".
Proof. done. Qed.

Lemma json_text_strip t : json_text t = strip t.
Proof. by destruct t. Qed.

(** [replace] keeps the length and changes the line feeds only. *)
Lemma replace_nl_length s : String.length (replace_nl s) = String.length s.
Proof. induction s as [|a s IH]; simpl; by f_equal. Qed.

Lemma replace_nl_get s i :
  String.get i (replace_nl s)
  = (λ a, if Ascii.eqb a LF then SPACE else a) <$> String.get i s.
Proof.
  revert i; induction s as [|a s IH]; intros i; [done|].
  destruct i as [|i]; simpl; [done|]. apply IH.
Qed.
End Strip.

(** ** Reading the grid and the dictionary *)
Section Lookup.
Implicit Types (cell : Cell) (cells : list Cell).

Lemma last_at_split pre cell post :
  (∀ x, x ∈ post → coord x ≠ coord cell) →
  last_at (coord cell) (pre ++ cell :: post) = Some cell.
Proof.
  intros Hpost. unfold last_at.
  rewrite filter_app, filter_cons_True by done.
  rewrite (filter_none _ post) by done.
  apply last_snoc.
Qed.

Lemma coord_in_bounds cells cell :
  cell ∈ cells →
  row_number cell < grid_height cells ∧
  column_number cell < row_width cells (row_number cell).
Proof.
  intros Hin. split.
  - assert (S (row_number cell) ≤ grid_height cells); [|lia].
    apply max_list_elem_of_le, list_elem_of_fmap. by exists cell.
  - assert (S (column_number cell) ≤ row_width cells (row_number cell));
      [|lia].
    apply max_list_elem_of_le, list_elem_of_fmap. exists cell.
    split; [done|]. by apply list_elem_of_filter.
Qed.

Lemma row_width_le cells r : row_width cells r ≤ S (max_col_index cells).
Proof.
  unfold row_width, max_col_index, cells_of_row.
  induction cells as [|cell cells IH]; [simpl; lia|].
  rewrite filter_cons, fmap_cons.
  destruct (decide (row_number cell = r)).
  - rewrite fmap_cons. simpl in *. lia.
  - simpl in *. lia.
Qed.

Lemma elem_of_List_filter {A} (f : A → bool) (l : list A) x :
  x ∈ List.filter f l ↔ x ∈ l ∧ f x = true.
Proof.
  induction l as [|y l IH]; simpl.
  - rewrite elem_of_nil. tauto.
  - destruct (f y) eqn:Hy; rewrite ?elem_of_cons, IH.
    + split; [intros [->|[? ?]]|intros [[->|?] ?]]; tauto.
    + split; [tauto|]. intros [[->|?] ?]; [congruence|tauto].
Qed.

Lemma any_true (row : list string) :
  any row = true ↔ ∃ s, s ∈ row ∧ s ≠ "".
Proof.
  unfold any. induction row as [|t row IH]; simpl.
  - split; [done|]. intros (s & Hs & _). by apply elem_of_nil in Hs.
  - rewrite orb_true_iff, IH. split.
    + intros [Ht|(s & Hs & Hne)].
      * exists t. split; [left|]. by destruct t.
      * exists s. split; [by right|done].
    + intros (s & Hs & Hne). apply elem_of_cons in Hs as [->|Hs].
      * left. by destruct t.
      * right. by exists s.
Qed.

Lemma grid_at_in_bounds cells r c :
  r < grid_height cells → c < row_width cells r →
  grid_at (rows_json_of cells) r c
  = Some (default "" (json_text ∘ text <$> last_at (r, c) cells)).
Proof.
  intros Hr Hc. destruct (rows_json_of_spec cells) as [_ Hrows].
  destruct (Hrows r Hr) as (row & Hrow & _ & Hcols).
  unfold grid_at. rewrite Hrow. simpl. by apply Hcols.
Qed.

Lemma grid_at_last cells cell :
  last_at (coord cell) cells = Some cell →
  grid_at (rows_json_of cells) (row_number cell) (column_number cell)
  = Some (json_text (text cell)).
Proof.
  intros Hlast.
  assert (cell ∈ cells) as Hin.
  { apply last_Some_elem_of, list_elem_of_filter in Hlast. tauto. }
  destruct (coord_in_bounds cells cell Hin) as [Hr Hc].
  rewrite grid_at_in_bounds by done.
  unfold coord in Hlast. by rewrite Hlast.
Qed.

Lemma rows_at_last cells cell :
  last_at (coord cell) cells = Some cell →
  rows_at (rows_of cells) (row_number cell) (column_number cell)
  = Some (html_text (text cell)).
Proof.
  intros Hlast. rewrite rows_at_rows_of.
  unfold coord in Hlast. by rewrite Hlast.
Qed.

(** A text of the dictionary is printed in its row. *)
Lemma html_layout_elem (rows : gmap nat (gmap nat string)) r c t :
  rows_at rows r c = Some t →
  ∃ items, (r, items) ∈ html_layout rows ∧ (c, t) ∈ items.
Proof.
  unfold rows_at. destruct (rows !! r) as [row|] eqn:Hrow; [simpl|done].
  intros Hc. exists (row_items row). split.
  - unfold html_layout. apply list_elem_of_fmap. exists r.
    rewrite Hrow. split; [done|].
    apply sorted_keys_elem_of, elem_of_dom. by eexists.
  - unfold row_items. apply list_elem_of_fmap. exists c.
    rewrite Hc. split; [done|].
    apply sorted_keys_elem_of, elem_of_dom. by eexists.
Qed.

Lemma print_layout_occurs lay r items c t :
  (r, items) ∈ lay → (c, t) ∈ items →
  PyStr.occurs_in (td_element t) (print_layout lay).
Proof.
  intros Hr Hc. unfold print_layout.
  apply occurs_in_app_r, occurs_in_app_l.
  apply (occurs_in_concat_str _ (tr_element items)).
  { apply list_elem_of_fmap. by exists (r, items). }
  unfold tr_element. apply occurs_in_app_r, occurs_in_app_r, occurs_in_app_l.
  apply (occurs_in_concat_str _ (td_element t)); [|apply occurs_in_refl].
  apply list_elem_of_fmap. by exists (c, t).
Qed.
End Lookup.

(** ** The order of the cells *)
Section Order.
Implicit Types (rows : gmap nat (gmap nat string)).
Implicit Types (cell a b : Cell) (cells : list Cell).

(** Two writes at different coordinates commute. *)
Lemma rows_step_comm rows a b :
  coord a ≠ coord b →
  rows_step (rows_step rows a) b = rows_step (rows_step rows b) a.
Proof.
  intros Hab. unfold rows_step, coord in *.
  destruct (decide (row_number a = row_number b)) as [Hr|Hr].
  - rewrite Hr, !lookup_insert_eq, !insert_insert_eq. simpl.
    f_equal. apply insert_insert_ne. congruence.
  - rewrite !lookup_insert_ne by done.
    by apply insert_insert_ne.
Qed.

Lemma rows_of_permutation rows cells1 cells2 :
  cells1 ≡ₚ cells2 → NoDup (coord <$> cells1) →
  foldl rows_step rows cells1 = foldl rows_step rows cells2.
Proof.
  intros Hperm. revert rows.
  induction Hperm as [|x l l' Hp IH|x y l|l l' l'' Hp1 IH1 Hp2 IH2];
    intros rows Hnd.
  - done.
  - simpl. apply IH. rewrite fmap_cons in Hnd. by apply NoDup_cons in Hnd as [_ ?].
  - simpl. rewrite rows_step_comm; [done|].
    rewrite !fmap_cons in Hnd. apply NoDup_cons in Hnd as [Hy _].
    intros Heq. apply Hy. rewrite Heq. left.
  - rewrite IH1 by done. apply IH2. by rewrite <- Hp1.
Qed.
End Order.

(** ** Paths *)
Section Paths.
Import PurePath.
Implicit Types (s x : string) (l : list string) (c : ascii).

Lemma split_no_char c x : has_char c x = false → split c x = [x].
Proof.
  induction x as [|a x IH]; [done|]. simpl.
  intros [Ha Hx]%orb_false_iff. by rewrite Ha, IH.
Qed.

Lemma split_app_sep c x s :
  has_char c x = false → split c (x +:+ String c s) = x :: split c s.
Proof.
  induction x as [|a x IH].
  - intros _. rewrite string_app_nil_l. simpl. by rewrite Ascii.eqb_refl.
  - simpl. intros [Ha Hx]%orb_false_iff.
    by rewrite Ha, IH.
Qed.

Lemma split_no_sep c s : Forall (λ x, has_char c x = false) (split c s).
Proof.
  induction s as [|a s IH]; simpl.
  - by repeat constructor.
  - destruct (Ascii.eqb a c) eqn:Ha; [by constructor|].
    destruct (split c s) as [|x xs]; [repeat constructor; simpl|].
    + by rewrite Ha.
    + apply Forall_cons in IH as [Hx Hxs]. constructor; [|done].
      simpl. by rewrite Ha.
Qed.

Lemma join_cons2 x y l :
  join sep (x :: y :: l) = x +:+ String SEP (join sep (y :: l)).
Proof. done. Qed.

Lemma split_join l :
  l ≠ [] → Forall (λ x, has_char SEP x = false) l →
  split SEP (join sep l) = l.
Proof.
  induction l as [|x l IH]; [done|]. intros _ [Hx Hl]%Forall_cons.
  destruct l as [|y l]; [by apply split_no_char|].
  rewrite join_cons2, split_app_sep by done. f_equal. by apply IH.
Qed.

Lemma join_first a x l : ∃ rest, join sep (String a x :: l) = String a rest.
Proof.
  destruct l as [|y l]; [by exists x|].
  rewrite join_cons2, string_app_cons. by eexists.
Qed.

Lemma filter_all {A} (P : A → Prop) `{∀ y, Decision (P y)} (k : list A) :
  Forall P k → filter P k = k.
Proof.
  induction 1 as [|y k Hy Hk IH]; [done|].
  by rewrite filter_cons_True, IH.
Qed.

Lemma splitroot_root s : (splitroot s).1 ∈ [""; "/"; "//"].
Proof.
  destruct s as [|a [|b [|c s]]]; simpl;
    repeat (match goal with |- context [Ascii.eqb ?x ?y] =>
              destruct (Ascii.eqb x y) end; simpl);
    rewrite !elem_of_cons; tauto.
Qed.

Lemma splitroot_relative a s :
  Ascii.eqb a SEP = false → splitroot (String a s) = ("", String a s).
Proof. intros Ha. simpl. by rewrite Ha. Qed.

Lemma splitroot_one a s :
  Ascii.eqb a SEP = false →
  splitroot (String SEP (String a s)) = ("/", String a s).
Proof. intros Ha. simpl. by rewrite Ha. Qed.

Lemma splitroot_two a s :
  Ascii.eqb a SEP = false →
  splitroot (String SEP (String SEP (String a s))) = ("//", String a s).
Proof. intros Ha. simpl. by rewrite Ha. Qed.

(** Parsing gives a well-formed path. *)
Lemma Path_wf s : wf_path (Path s).
Proof.
  unfold Path. destruct (decide (s = "")).
  { split; [left|constructor]. }
  pose proof (splitroot_root s) as Hroot.
  destruct (splitroot s) as [r rel]. split; [done|]. simpl.
  apply Forall_forall. intros x [Hk Hx]%list_elem_of_filter.
  split; [done|].
  pose proof (split_no_sep SEP rel) as Hall.
  rewrite Forall_forall in Hall. by apply Hall.
Qed.

(** [str] followed by [Path] gives the path back. *)
Lemma Path_to_str (p : t) : wf_path p → Path (to_str p) = p.
Proof.
  destruct p as [r tl]. intros [Hr Htl]. simpl in *.
  destruct tl as [|x xs].
  { rewrite !elem_of_cons in Hr.
    destruct Hr as [->|[->|[->|Hr]]]; [done..|by apply elem_of_nil in Hr]. }
  assert (Hkept : Forall kept (x :: xs)).
  { eapply Forall_impl; [exact Htl|]. by intros ? [? _]. }
  assert (Hsep : Forall (λ x, has_char SEP x = false) (x :: xs)).
  { eapply Forall_impl; [exact Htl|]. by intros ? [_ ?]. }
  assert (Hsplit : filter kept (split SEP (join sep (x :: xs))) = x :: xs).
  { rewrite split_join by done. by apply filter_all. }
  apply Forall_cons in Htl as [[[Hne _] Hx] _].
  destruct x as [|a x]; [done|].
  simpl in Hx. apply orb_false_iff in Hx as [Ha _].
  destruct (join_first a x xs) as [rest Hrest].
  unfold to_str, Path. simpl root. simpl tail.
  rewrite Hrest in *.
  rewrite !elem_of_cons in Hr.
  destruct Hr as [->|[->|[->|Hr]]]; [| | |by apply elem_of_nil in Hr].
  - rewrite string_app_nil_l. rewrite !decide_False by done.
    rewrite splitroot_relative by done. by rewrite Hsplit.
  - change ("/" +:+ String a rest) with (String SEP (String a rest)).
    rewrite !decide_False by done.
    rewrite splitroot_one by done. by rewrite Hsplit.
  - change ("//" +:+ String a rest)
      with (String SEP (String SEP (String a rest))).
    rewrite !decide_False by done.
    rewrite splitroot_two by done. by rewrite Hsplit.
Qed.

Lemma Path_to_str_Path s : Path (to_str (Path s)) = Path s.
Proof. apply Path_to_str, Path_wf. Qed.

(** [to_pdf] looks at its argument through [Path] only. *)
Lemma to_pdf_Path env s1 s2 :
  Path s1 = Path s2 → to_pdf env s1 = to_pdf env s2.
Proof. unfold to_pdf. by intros ->. Qed.
End Paths.

(** ** The monad and the page loop *)
Section Main.
Implicit Types (env : Env) (d : gmap string json) (page : Page.t).

Lemma bind_inr {A B} (m : M A) (f : A → M B) trace y :
  m ≫= f = (trace, inr y) →
  ∃ tr1 x tr2, m = (tr1, inr x) ∧ f x = (tr2, inr y) ∧ trace = tr1 ++ tr2.
Proof.
  destruct m as [tr1 [e|x]]; unfold mbind, M_bind; simpl; [done|].
  destruct (f x) as [tr2 r] eqn:Hf. simpl. intros [= <- ->].
  by exists tr1, x, tr2.
Qed.

Lemma dict_append_len_eq key x d n :
  list_len_at d key n → list_len_at (dict_append key x d) key (S n).
Proof.
  intros (l & Hl & Hn). exists (l ++ [x]). unfold dict_append.
  rewrite lookup_alter_eq, Hl. split; [done|].
  rewrite length_app. simpl. lia.
Qed.

Lemma dict_append_len_ne key key' x d n :
  key ≠ key' → list_len_at d key' n →
  list_len_at (dict_append key x d) key' n.
Proof.
  intros Hne (l & Hl & Hn). exists l. unfold dict_append.
  by rewrite lookup_alter_ne.
Qed.

Lemma dict_append_lookup_ne key key' x d :
  key ≠ key' → dict_append key x d !! key' = d !! key'.
Proof. intros. unfold dict_append. by rewrite lookup_alter_ne. Qed.

(** A loop of [d[key].append(f(x))]. *)
Lemma foldl_append_len_eq {A} key (f : A → json) (items : list A) d n :
  list_len_at d key n →
  list_len_at (foldl (λ d x, dict_append key (f x) d) d items) key
              (n + length items).
Proof.
  revert d n; induction items as [|x items IH]; intros d n Hd; simpl.
  - by rewrite Nat.add_0_r.
  - replace (n + S (length items)) with (S n + length items) by lia.
    by apply IH, dict_append_len_eq.
Qed.

Lemma foldl_append_lookup_ne {A} key key' (f : A → json) (items : list A) d :
  key ≠ key' →
  foldl (λ d x, dict_append key (f x) d) d items !! key' = d !! key'.
Proof.
  intros Hne. revert d; induction items as [|x items IH]; intros d; simpl.
  - done.
  - by rewrite IH, dict_append_lookup_ne.
Qed.

(** The loop over the tables of a page. *)
Lemma foldl_table_step_len_eq page_num (its : list (Z * Table.t)) h d n :
  list_len_at d "tables" n →
  list_len_at (foldl (table_step page_num) (h, d) its).2 "tables"
              (n + length its).
Proof.
  revert h d n; induction its as [|[idx table] its IH]; intros h d n Hd; simpl.
  - by rewrite Nat.add_0_r.
  - replace (n + S (length its)) with (S n + length its) by lia.
    by apply IH, dict_append_len_eq.
Qed.

Lemma foldl_table_step_lookup_ne page_num (its : list (Z * Table.t)) h d key :
  key ≠ "tables" →
  (foldl (table_step page_num) (h, d) its).2 !! key = d !! key.
Proof.
  intros Hne. revert h d; induction its as [|[idx table] its IH];
    intros h d; simpl; [done|].
  by rewrite IH, dict_append_lookup_ne.
Qed.

Lemma enumerate1_length {A} (l : list A) : length (enumerate1 l) = length l.
Proof. apply length_imap. Qed.

Lemma list_len_at_lookup d d' key n :
  d' !! key = d !! key → list_len_at d key n → list_len_at d' key n.
Proof. intros Heq (l & Hl & Hn). exists l. by rewrite Heq. Qed.

(** The state after the tables of a page. *)
Lemma tables_part_len page_num (tables : list Table.t) h d :
  list_len_at d "tables" 0 →
  list_len_at
    (if decide (tables ≠ [])
     then foldl (table_step page_num) (h, d) (enumerate1 tables)
     else (h, d)).2 "tables" (length tables).
Proof.
  intros Hd. destruct (decide (tables ≠ [])) as [Hne|Hnil].
  - rewrite <- (enumerate1_length tables).
    by apply (foldl_table_step_len_eq _ _ _ _ 0).
  - destruct tables; [done|]. by destruct Hnil.
Qed.

Lemma tables_part_lookup_ne page_num (tables : list Table.t) h d key :
  key ≠ "tables" →
  (if decide (tables ≠ [])
   then foldl (table_step page_num) (h, d) (enumerate1 tables)
   else (h, d)).2 !! key = d !! key.
Proof.
  intros Hne. destruct (decide (tables ≠ [])); [|done].
  by apply foldl_table_step_lookup_ne.
Qed.

(** One turn of the page loop appends one record of the page. *)
Lemma page_step_record env h ps page trace h' ps' :
  page_step env (h, ps) page = (trace, inr (h', ps')) →
  ∃ entry, ps' = ps ++ [entry] ∧ page_record page entry.
Proof.
  unfold page_step. intros H.
  apply bind_inr in H as (tr1 & [] & tr2 & _ & H & _).
  apply bind_inr in H as (tr3 & [] & tr4 & _ & H & _).
  cbv zeta in H.
  match type of H with
  | (let '(_, _) := ?X in _) = _ =>
      pose proof (tables_part_len (Page.page_number page)
                    (Page.tables page) h) as Htab;
      pose proof (tables_part_lookup_ne (Page.page_number page)
                    (Page.tables page) h) as Hother;
      destruct X as [h1 d4] eqn:HX
  end.
  injection H as _ <- <-. eexists. split; [done|].
  eexists. split; [done|].
  match type of HX with
  | (if _ then foldl _ (_, ?d) _ else _) = _ =>
      specialize (Htab d); specialize (Hother d);
      rewrite HX in Htab, Hother; simpl in Htab, Hother
  end.
  split.
  - rewrite foldl_append_lookup_ne, Hother by done.
    by rewrite !foldl_append_lookup_ne by done.
  - intros key Hkey. unfold categories in Hkey.
    rewrite !elem_of_cons in Hkey.
    destruct Hkey as [->|[->|[->|[->|[->|Hkey]]]]];
      [| | | | |by apply elem_of_nil in Hkey];
      unfold detected; simpl.
    + eapply list_len_at_lookup;
        [by rewrite foldl_append_lookup_ne, Hother,
              !foldl_append_lookup_ne by done|].
      by apply (foldl_append_len_eq _ _ _ _ 0); eexists.
    + eapply list_len_at_lookup;
        [by rewrite foldl_append_lookup_ne, Hother,
              foldl_append_lookup_ne by done|].
      apply (foldl_append_len_eq _ _ _ _ 0).
      eapply list_len_at_lookup;
        [by rewrite foldl_append_lookup_ne by done|]. by eexists.
    + eapply list_len_at_lookup;
        [by rewrite foldl_append_lookup_ne, Hother by done|].
      apply (foldl_append_len_eq _ _ _ _ 0).
      eapply list_len_at_lookup;
        [by rewrite !foldl_append_lookup_ne by done|]. by eexists.
    + eapply list_len_at_lookup;
        [by rewrite foldl_append_lookup_ne by done|].
      apply Htab.
      eapply list_len_at_lookup;
        [by rewrite !foldl_append_lookup_ne by done|]. by eexists.
    + rewrite <- (enumerate1_length (Page.get_layouts page "figure")).
      apply (foldl_append_len_eq _ _ _ _ 0).
      eapply list_len_at_lookup;
        [by rewrite Hother, !foldl_append_lookup_ne by done|]. by eexists.
Qed.

(** The page loop appends one record per page, in the order of the pages. *)
Lemma for_each_page_records env (pages : list Page.t) h ps trace h' ps' :
  for_each (page_step env) (h, ps) pages = (trace, inr (h', ps')) →
  ∃ entries, ps' = ps ++ entries ∧ Forall2 page_record pages entries.
Proof.
  revert h ps trace; induction pages as [|page pages IH];
    intros h ps trace H; simpl in H.
  - injection H as _ <- <-. exists []. by rewrite app_nil_r.
  - apply bind_inr in H as (tr1 & [h1 ps1] & tr2 & Hstep & H & _).
    apply page_step_record in Hstep as (entry & -> & Hrec).
    apply IH in H as (entries & -> & Hall).
    exists (entry :: entries). rewrite <- app_assoc. split; [done|].
    by constructor.
Qed.
End Main.

(** ** The examples of the specification *)

(** Four cells in two rows and two columns. *)
Example round_trip :
  json_rows [mkCell 0 0 "A"; mkCell 0 1 "B"; mkCell 1 0 "C"; mkCell 1 1 "D"]
  = [["A"; "B"]; ["C"; "D"]] ∧
  html_layout (rows_of [mkCell 0 0 "A"; mkCell 0 1 "B";
                        mkCell 1 0 "C"; mkCell 1 1 "D"])
  = [(0, [(0, "A"); (1, "B")]); (1, [(0, "C"); (1, "D")])].
Proof. split; vm_compute; reflexivity. Qed.

(** A document of two pages: a text block, then a table and a figure. *)
Example end_to_end :
  (main sample_env "input/sample.pdf").2
  = inr (Some
      (JDict {[ "pages" := JList
         [JDict {[ "page_number" := JInt 1;
                   "texts" := JList [JDict {[ "text" := JStr "Hello";
                                              "bbox" := JNull ]}];
                   "tables" := JList [];
                   "titles" := JList [];
                   "lists" := JList [];
                   "figures" := JList [] ]};
          JDict {[ "page_number" := JInt 2;
                   "texts" := JList [];
                   "tables" := JList
                     [JDict {[ "table_index" := JInt 1;
                               "rows" := JList [JList [JStr "A"; JStr "B"];
                                                JList [JStr "C"; JStr "D"]];
                               "bbox" := JNull ]}];
                   "titles" := JList [];
                   "lists" := JList [];
                   "figures" := JList
                     [JDict {[ "figure_index" := JInt 1;
                               "bbox" := JList [JInt 0; JInt 0; JInt 9; JInt 9] ]}] ]}] ]},
       ["<h3>Page 2 - Table 1</h3>"
        +:+ table_to_html [mkCell 0 0 "A"; mkCell 0 1 "B";
                           mkCell 1 0 "C"; mkCell 1 1 "D"]])).
Proof. vm_compute. reflexivity. Qed.

(** * The claims *)

(** ** C1: the shape of the JSON grid *)

(** C1, as the specification words it, fails: for the cells [(0,0,"A")] and
    [(1,1,"B")] the grid is [[["A"]; [""; "B"]]], and its first row is one
    string long, not two (the largest column index plus one). *)
Lemma C1_rows_are_ragged :
  ¬ (∀ row, row ∈ rows_json_of [mkCell 0 0 "A"; mkCell 1 1 "B"] →
       length row = S (max_col_index [mkCell 0 0 "A"; mkCell 1 1 "B"])).
Proof.
  intros H. specialize (H ["A"]).
  assert (["A"] ∈ rows_json_of [mkCell 0 0 "A"; mkCell 1 1 "B"]) as Hin
    by (vm_compute; left).
  apply H in Hin. vm_compute in Hin. discriminate.
Qed.

(** C1 (amended): for a non-empty collection of cells the grid built by
    the loop of [main], before the empty rows are dropped, has exactly
    (largest row index + 1) rows; row [r] is as long as the cells of that
    row ask for, that is (largest column index among the cells of row [r]) + 1,
    and empty when no cell has row index [r], so it is never longer than the
    largest column index plus one; a position inside a row that no cell wrote
    holds the empty string. *)
Theorem C1_grid_shape (cells : list Cell) :
  cells ≠ [] →
  length (rows_json_of cells) = S (max_row_index cells) ∧
  (∀ r row, rows_json_of cells !! r = Some row →
     length row = row_width cells r ∧
     length row ≤ S (max_col_index cells) ∧
     ∀ c, c < length row →
       (∀ cell, cell ∈ cells → coord cell ≠ (r, c)) →
       row !! c = Some "").
Proof.
  intros Hne. destruct (rows_json_of_spec cells) as [Hlen Hrows].
  split; [by rewrite Hlen, grid_height_max_row|].
  intros r row Hrow.
  assert (r < grid_height cells) as Hr.
  { rewrite <- Hlen. by apply lookup_lt_is_Some_1. }
  destruct (Hrows r Hr) as (row' & Hrow' & Hw & Hcols).
  rewrite Hrow in Hrow'. injection Hrow' as <-.
  split; [done|]. split.
  - rewrite Hw. apply row_width_le.
  - intros c Hc Hfree. rewrite Hcols by lia. f_equal.
    destruct (last_at (r, c) cells) as [cell|] eqn:Hlast; [|done].
    apply last_Some_elem_of, list_elem_of_filter in Hlast as [Hrc Hin].
    by destruct (Hfree cell Hin).
Qed.

Lemma C1_grid_shape_witness :
  length (rows_json_of [mkCell 0 0 "A"; mkCell 1 1 "B"]) = 2 ∧
  rows_json_of [mkCell 0 0 "A"; mkCell 1 1 "B"] !! 1 = Some [""; "B"] ∧
  [""; "B"] !! 0 = Some "".
Proof.
  assert ([mkCell 0 0 "A"; mkCell 1 1 "B"] ≠ []) as Hne by discriminate.
  destruct (C1_grid_shape [mkCell 0 0 "A"; mkCell 1 1 "B"] Hne) as [Hlen Hrows].
  split; [exact Hlen|]. split; [reflexivity|].
  destruct (Hrows 1 [""; "B"] eq_refl) as (_ & _ & Hcols).
  apply (Hcols 0); [simpl; lia|].
  intros cell Hin Hc.
  apply elem_of_cons in Hin as [->|Hin]; [discriminate Hc|].
  apply list_elem_of_singleton in Hin as ->. discriminate Hc.
Defined.

(** ** C2: the rows of the HTML table *)

Example table_to_html_gap :
  table_to_html [mkCell 0 0 "A"; mkCell 2 0 "B"]
  = "<table border='1' cellspacing='0' cellpadding='5' style='border-collapse: collapse; margin-bottom: 20px;'>
  <tr>
    <td>A</td>
  </tr>
  <tr>
    <td>B</td>
  </tr>
</table>
".
Proof. vm_compute. reflexivity. Qed.

(** C2, as the specification words it, fails: with cells in rows 0 and 2
    only, the largest row index is 2 but no [<tr>] is printed for row 1. *)
Lemma C2_no_tr_for_absent_row :
  ¬ (∀ r, r ≤ max_row_index [mkCell 0 0 "A"; mkCell 2 0 "B"] →
       r ∈ (html_layout (rows_of [mkCell 0 0 "A"; mkCell 2 0 "B"])).*1).
Proof.
  intros H. specialize (H 1). vm_compute in H.
  assert (1 ∈ [0; 2]) as Hin by (apply H; lia).
  apply elem_of_cons in Hin as [?|Hin]; [lia|].
  apply list_elem_of_singleton in Hin. lia.
Qed.

(** C2 (amended): the HTML of a table is the opening tag, one [<tr>]
    element per row index that some cell carries (none for a row index
    without a cell), in strictly ascending order of the row index, and the
    closing tag; the [<tr>] of row [r] holds one [<td>] per column index that
    some cell of row [r] carries, in strictly ascending order of the column
    index. *)
Theorem C2_html_rows (cells : list Cell) :
  table_to_html cells = print_layout (html_layout (rows_of cells)) ∧
  StronglySorted lt (html_layout (rows_of cells)).*1 ∧
  (∀ r, r ∈ (html_layout (rows_of cells)).*1
        ↔ ∃ cell, cell ∈ cells ∧ row_number cell = r) ∧
  (∀ r items, (r, items) ∈ html_layout (rows_of cells) →
     StronglySorted lt items.*1 ∧
     ∀ c, c ∈ items.*1 ↔ ∃ cell, cell ∈ cells ∧ coord cell = (r, c)).
Proof.
  assert (Hfst : (html_layout (rows_of cells)).*1 = sorted_keys (rows_of cells)).
  { unfold html_layout. rewrite <- list_fmap_compose. apply list_fmap_id. }
  assert (Hitems : ∀ row, (row_items row).*1 = sorted_keys row).
  { intros row. unfold row_items. rewrite <- list_fmap_compose.
    apply list_fmap_id. }
  split; [apply render_layout|]. rewrite Hfst.
  split; [apply sorted_keys_ascending|]. split.
  - intros r. by rewrite sorted_keys_elem_of, rows_of_dom.
  - intros r items Hin. unfold html_layout in Hin.
    apply list_elem_of_fmap in Hin as (r' & [= <- ->] & Hr).
    rewrite Hitems. split; [apply sorted_keys_ascending|].
    intros c. rewrite sorted_keys_elem_of, elem_of_dom.
    apply sorted_keys_elem_of, elem_of_dom in Hr as [row Hrow].
    rewrite Hrow. simpl.
    rewrite <- last_at_is_Some.
    pose proof (rows_at_rows_of cells r c) as Hat.
    unfold rows_at in Hat. rewrite Hrow in Hat. simpl in Hat. rewrite Hat.
    by rewrite fmap_is_Some.
Qed.

(** ** C3: the later cell wins *)

(** C3: when several cells carry the same coordinate, the one that comes last
    in the enumeration decides the text at that coordinate: the JSON grid
    holds its text (as [main] writes it), the dictionary of [table_to_html]
    holds its text (as [table_to_html] writes it), and in the string that
    [table_to_html] returns, which is the printed layout of that dictionary,
    the one [<tr>] of the row has at the column one [<td>], and it holds that
    text; so the line of this [<td>] is in the string. *)
Theorem C3_last_write_wins (pre post : list Cell) (cell : Cell) :
  (∀ x, x ∈ post → coord x ≠ coord cell) →
  grid_at (rows_json_of (pre ++ cell :: post))
          (row_number cell) (column_number cell)
  = Some (json_text (text cell)) ∧
  rows_at (rows_of (pre ++ cell :: post))
          (row_number cell) (column_number cell)
  = Some (html_text (text cell)) ∧
  table_to_html (pre ++ cell :: post)
  = print_layout (html_layout (rows_of (pre ++ cell :: post))) ∧
  PyStr.occurs_in
    ("    <td>" +:+ html_text (text cell) +:+ "</td>" +:+ PyStr.nl)
    (table_to_html (pre ++ cell :: post)) ∧
  ∃ items,
    (row_number cell, items) ∈ html_layout (rows_of (pre ++ cell :: post)) ∧
    (∀ items', (row_number cell, items')
               ∈ html_layout (rows_of (pre ++ cell :: post)) →
               items' = items) ∧
    (column_number cell, html_text (text cell)) ∈ items ∧
    ∀ t, (column_number cell, t) ∈ items → t = html_text (text cell).
Proof.
  intros Hpost. pose proof (last_at_split pre cell post Hpost) as Hlast.
  split; [by apply grid_at_last|].
  pose proof (rows_at_last _ _ Hlast) as Hat.
  split; [done|].
  split; [apply render_layout|].
  destruct (html_layout_elem _ _ _ _ Hat) as (items & Hr & Hc).
  split.
  { unfold table_to_html. rewrite render_layout.
    by eapply print_layout_occurs. }
  exists items. split; [done|].
  unfold html_layout in Hr.
  apply list_elem_of_fmap in Hr as (r' & [= <- ->] & _).
  split.
  { intros items' Hin. unfold html_layout in Hin.
    by apply list_elem_of_fmap in Hin as (r'' & [= <- ->] & _). }
  split; [done|].
  intros t Ht.
  unfold row_items in Ht, Hc.
  apply list_elem_of_fmap in Ht as (c1 & [= <- ->] & _).
  apply list_elem_of_fmap in Hc as (c2 & [= <- Hc2] & _). done.
Qed.

(** The tie-break of the specification: ["X"] then ["Y"] at [(0,0)]. *)
Lemma C3_last_write_wins_witness :
  grid_at (rows_json_of [mkCell 0 0 "X"; mkCell 0 0 "Y"]) 0 0 = Some "Y" ∧
  rows_at (rows_of [mkCell 0 0 "X"; mkCell 0 0 "Y"]) 0 0 = Some "Y" ∧
  PyStr.occurs_in ("    <td>Y</td>" +:+ PyStr.nl)
                  (table_to_html [mkCell 0 0 "X"; mkCell 0 0 "Y"]) ∧
  table_to_html [mkCell 0 0 "X"; mkCell 0 0 "Y"]
  = "<table border='1' cellspacing='0' cellpadding='5' style='border-collapse: collapse; margin-bottom: 20px;'>
  <tr>
    <td>Y</td>
  </tr>
</table>
".
Proof.
  assert (∀ x, x ∈ [] → coord x ≠ coord (mkCell 0 0 "Y")) as Hpost.
  { intros x Hx. by apply elem_of_nil in Hx. }
  destruct (C3_last_write_wins [mkCell 0 0 "X"] [] (mkCell 0 0 "Y") Hpost)
    as (Hjson & Hhtml & _ & Hocc & _).
  split; [exact Hjson|]. split; [exact Hhtml|]. split; [exact Hocc|].
  vm_compute. reflexivity.
Defined.

(** ** C4: rows without text are dropped *)

(** A row into which a cell with text wrote has text. *)
Lemma row_of_cell_has_text (cells : list Cell) (cell : Cell) (row : list string) :
  (∀ x, x ∈ cells → json_text (text x) ≠ "") →
  cell ∈ cells →
  rows_json_of cells !! row_number cell = Some row →
  any row = true.
Proof.
  intros Htext Hin Hrow.
  destruct (coord_in_bounds cells cell Hin) as [Hr Hc].
  pose proof (grid_at_in_bounds cells _ _ Hr Hc) as Hat.
  unfold grid_at in Hat. rewrite Hrow in Hat. simpl in Hat.
  assert (is_Some (last_at (row_number cell, column_number cell) cells))
    as [x Hx].
  { apply last_at_is_Some. by exists cell. }
  rewrite Hx in Hat. simpl in Hat.
  apply any_true. exists (json_text (text x)). split.
  - apply list_elem_of_lookup. by eexists.
  - apply Htext. apply last_Some_elem_of, list_elem_of_filter in Hx. tauto.
Qed.

(** C4: the ["rows"] entry of a table keeps, in their order, exactly the
    rows of the grid in which some string is not empty; a row whose strings
    are all empty (or that has no string at all) is dropped.  When the cells
    have text and sit in rows 0 and 2 only, the grid has three rows and the
    ["rows"] entry the two with text; so for the four cells [A], [B] in row 0
    and [C], [D] in row 2. *)
Theorem C4_blank_rows_dropped :
  (∀ cells row, row ∈ json_rows cells ↔
     row ∈ rows_json_of cells ∧ ∃ s, s ∈ row ∧ s ≠ "") ∧
  (∀ cells, sublist (json_rows cells) (rows_json_of cells)) ∧
  (∀ cells a b,
     (∀ x, x ∈ cells → json_text (text x) ≠ "") →
     (∀ x, x ∈ cells → row_number x = 0 ∨ row_number x = 2) →
     a ∈ cells → row_number a = 0 → b ∈ cells → row_number b = 2 →
     ∃ row0 row2,
       rows_json_of cells = [row0; []; row2] ∧
       json_rows cells = [row0; row2]) ∧
  rows_json_of [mkCell 0 0 "A"; mkCell 0 1 "B"; mkCell 2 0 "C"; mkCell 2 1 "D"]
  = [["A"; "B"]; []; ["C"; "D"]] ∧
  json_rows [mkCell 0 0 "A"; mkCell 0 1 "B"; mkCell 2 0 "C"; mkCell 2 1 "D"]
  = [["A"; "B"]; ["C"; "D"]].
Proof.
  split; [|split; [|split; [|split; vm_compute; reflexivity]]].
  - intros cells row. unfold json_rows.
    by rewrite elem_of_List_filter, any_true.
  - intros cells. unfold json_rows.
    induction (rows_json_of cells) as [|row g IH]; simpl; [constructor|].
    destruct (any row); by constructor.
  - intros cells a b Htext Hrows Ha Ha0 Hb Hb2.
    destruct (rows_json_of_spec cells) as [Hlen Hspec].
    assert (grid_height cells = 3) as Hh.
    { unfold grid_height. apply Nat.le_antisymm.
      - apply max_list_le. intros n Hn.
        apply list_elem_of_fmap in Hn as (x & -> & Hx).
        destruct (Hrows x Hx) as [Hr|Hr]; simpl; lia.
      - apply max_list_elem_of_le, list_elem_of_fmap. exists b.
        split; [simpl; lia|done]. }
    rewrite Hh in Hlen, Hspec.
    destruct (rows_json_of cells) as [|row0 [|row1 [|row2 [|]]]] eqn:Hg;
      try discriminate Hlen.
    assert (row1 = []) as ->.
    { destruct (Hspec 1) as (row & Hrow & Hw & _); [lia|].
      injection Hrow as <-. apply length_zero_iff_nil. rewrite Hw.
      unfold row_width, cells_of_row. rewrite filter_none; [done|].
      intros x Hx Hr. destruct (Hrows x Hx); lia. }
    exists row0, row2. split; [done|].
    unfold json_rows. rewrite Hg. simpl.
    rewrite (row_of_cell_has_text cells a row0), (row_of_cell_has_text cells b row2);
      try done.
    + by rewrite Hg, Hb2.
    + by rewrite Hg, Ha0.
Qed.

(** ** C5: the text that a cell writes *)

Example line_feed_example :
  rows_json_of [mkCell 0 0 ("a" +:+ PyStr.nl +:+ "b ")]
  = [["a" +:+ PyStr.nl +:+ "b"]] ∧
  html_layout (rows_of [mkCell 0 0 ("a" +:+ PyStr.nl +:+ "b ")])
  = [(0, [(0, "a b")])].
Proof. split; vm_compute; reflexivity. Qed.

(** C5, as the specification words it, fails on the JSON side: the text
    ["a\nb "] is written into the grid as ["a\nb"], the line feed is kept. *)
Lemma C5_json_keeps_line_feed :
  ¬ (grid_at (rows_json_of [mkCell 0 0 ("a" +:+ PyStr.nl +:+ "b ")]) 0 0
     = Some (PyStr.strip
               (PyStr.replace_nl (text (mkCell 0 0 ("a" +:+ PyStr.nl +:+ "b ")))))).
Proof. vm_compute. discriminate. Qed.

(** C5 (amended): right after a cell is processed, the dictionary of
    [table_to_html] holds at the cell's coordinate the cell's text with every
    line feed replaced by a space and the white space at both ends removed;
    the JSON grid holds at that coordinate the cell's text with the white
    space at both ends removed, line feeds inside the text being kept. *)
Theorem C5_written_text (pre : list Cell) (cell : Cell) :
  rows_at (rows_of (pre ++ [cell])) (row_number cell) (column_number cell)
  = Some (PyStr.strip (PyStr.replace_nl (text cell))) ∧
  grid_at (rows_json_of (pre ++ [cell])) (row_number cell) (column_number cell)
  = Some (PyStr.strip (text cell)).
Proof.
  assert (last_at (coord cell) (pre ++ [cell]) = Some cell) as Hlast.
  { apply last_at_split. intros x Hx. by apply elem_of_nil in Hx. }
  split.
  - by apply rows_at_last.
  - rewrite <- json_text_strip. by apply grid_at_last.
Qed.

(** ** C6: a PDF is passed through *)

(** C6: when the suffix of the path, in lower case, is [".pdf"], [to_pdf]
    prints its message and returns the string of the path it was given; no
    converter runs and no file is written.  The returned string parses to the
    very same path, it is the argument itself when the argument is the string
    of a path, and giving it to [to_pdf] again has the same outcome. *)
Theorem C6_pdf_passes_through (env : Env) (input_path : string) :
  PyStr.lower (PurePath.suffix (PurePath.Path input_path)) = ".pdf" →
  to_pdf env input_path
  = ([Print "[*] Converting .pdf to PDF..."],
     inr (PurePath.to_str (PurePath.Path input_path))) ∧
  PurePath.Path (PurePath.to_str (PurePath.Path input_path))
  = PurePath.Path input_path ∧
  (∀ p, wf_path p → input_path = PurePath.to_str p →
        to_pdf env input_path
        = ([Print "[*] Converting .pdf to PDF..."], inr input_path)) ∧
  to_pdf env (PurePath.to_str (PurePath.Path input_path))
  = to_pdf env input_path.
Proof.
  intros Hext.
  assert (Hrun : to_pdf env input_path
                 = ([Print "[*] Converting .pdf to PDF..."],
                    inr (PurePath.to_str (PurePath.Path input_path)))).
  { unfold to_pdf. rewrite Hext. by rewrite decide_True. }
  split; [done|]. split; [apply Path_to_str_Path|]. split.
  - intros p Hp ->. rewrite Hrun. by rewrite Path_to_str.
  - apply to_pdf_Path, Path_to_str_Path.
Qed.

Lemma C6_pdf_passes_through_witness :
  to_pdf sample_env "input/Sample.PDF"
  = ([Print "[*] Converting .pdf to PDF..."], inr "input/Sample.PDF").
Proof.
  assert (PyStr.lower (PurePath.suffix (PurePath.Path "input/Sample.PDF"))
          = ".pdf") as Hext by (vm_compute; reflexivity).
  destruct (C6_pdf_passes_through sample_env "input/Sample.PDF" Hext)
    as (Hrun & _).
  exact Hrun.
Defined.

(** ** C7: an extension that is not known *)

(** C7: when the suffix of the path, in lower case, is none of the nine
    known extensions, [to_pdf] raises [ValueError] (the error the
    specification calls UnsupportedFormatError) with a message that ends in
    that lower-case suffix; [main] prints the message and returns without a
    document, and no event of the layout engine is in its trace. *)
Theorem C7_unsupported_extension (env : Env) (input_path ext : string) :
  ext = PyStr.lower (PurePath.suffix (PurePath.Path input_path)) →
  ext ∉ recognised →
  to_pdf env input_path
  = ([Print ("[*] Converting " +:+ ext +:+ " to PDF...")],
     inl (ValueError ("Unsupported file format: " +:+ ext))) ∧
  main env input_path
  = ([Print ("[*] Converting " +:+ ext +:+ " to PDF...");
      Print ("Error during conversion: Unsupported file format: " +:+ ext)],
     inr None) ∧
  (∀ e, e ∈ (main env input_path).1 → ¬ engine_event e).
Proof.
  intros Hext Hnot. unfold recognised in Hnot. rewrite !elem_of_cons in Hnot.
  assert (Hrun : to_pdf env input_path
                 = ([Print ("[*] Converting " +:+ ext +:+ " to PDF...")],
                    inl (ValueError ("Unsupported file format: " +:+ ext)))).
  { unfold to_pdf. rewrite <- Hext.
    rewrite (decide_False (P := ext = ".pdf")) by tauto.
    rewrite (decide_False (P := ext ∈ [".docx"; ".pptx"; ".xlsx"]))
      by (rewrite !elem_of_cons; tauto).
    rewrite (decide_False (P := ext = ".html")) by tauto.
    rewrite (decide_False (P := ext ∈ [".png"; ".jpg"; ".jpeg"]))
      by (rewrite !elem_of_cons; tauto).
    rewrite (decide_False (P := ext = ".txt")) by tauto.
    reflexivity. }
  assert (Hmain : main env input_path
    = ([Print ("[*] Converting " +:+ ext +:+ " to PDF...");
        Print ("Error during conversion: Unsupported file format: " +:+ ext)],
       inr None)).
  { unfold main. rewrite Hrun. reflexivity. }
  split; [done|]. split; [done|].
  rewrite Hmain. simpl. intros e He [->|[[path ->]| ->]];
    rewrite !elem_of_cons in He; destruct He as [He|[He|He]];
    try discriminate He; by apply elem_of_nil in He.
Qed.

Lemma C7_unsupported_extension_witness :
  main sample_env "notes/report.XYZ"
  = ([Print "[*] Converting .xyz to PDF...";
      Print "Error during conversion: Unsupported file format: .xyz"],
     inr None).
Proof.
  assert (".xyz" ∉ recognised) as Hnot.
  { unfold recognised. rewrite !elem_of_cons, elem_of_nil.
    intros H; repeat destruct H as [H|H]; try discriminate H; done. }
  destruct (C7_unsupported_extension sample_env "notes/report.XYZ" ".xyz"
              eq_refl Hnot) as (_ & Hmain & _).
  exact Hmain.
Defined.

(** ** C8: the page records *)

(** When no call fails and the extension is known, [main] runs to its end
    and has a document. *)
Lemma to_pdf_returns (env : Env) (input_path : string) :
  (∀ e, fails env e = None) →
  PyStr.lower (PurePath.suffix (PurePath.Path input_path)) ∈ recognised →
  ∃ trace path, to_pdf env input_path = (trace, inr path).
Proof.
  intros Hok Hext. unfold to_pdf, call.
  repeat case_decide; rewrite ?Hok; try by repeat eexists.
  exfalso. unfold recognised in Hext.
  repeat match goal with H : _ ∉ _ |- _ => rewrite !elem_of_cons in H end.
  rewrite !elem_of_cons, elem_of_nil in Hext. tauto.
Qed.

Lemma for_each_returns (env : Env) (pages : list Page.t) st :
  (∀ e, fails env e = None) →
  ∃ trace st', for_each (page_step env) st pages = (trace, inr st').
Proof.
  intros Hok. revert st; induction pages as [|page pages IH]; intros st.
  - by repeat eexists.
  - simpl. destruct st as [h ps].
    assert (∃ tr st1, page_step env (h, ps) page = (tr, inr st1))
      as (tr & st1 & ->).
    { unfold page_step, call. rewrite Hok. cbv zeta.
      destruct (if decide (Page.tables page ≠ []) then _ else _).
      by repeat eexists. }
    destruct (IH st1) as (tr' & st' & Hrest).
    unfold mbind, M_bind. simpl. rewrite Hrest. by repeat eexists.
Qed.

Lemma main_returns (env : Env) (input_path : string) :
  (∀ e, fails env e = None) →
  PyStr.lower (PurePath.suffix (PurePath.Path input_path)) ∈ recognised →
  ∃ trace data htmls, main env input_path = (trace, inr (Some (data, htmls))).
Proof.
  intros Hok Hext.
  destruct (to_pdf_returns env input_path Hok Hext) as (tr & path & Hpdf).
  unfold main. rewrite Hpdf. unfold call. rewrite !Hok.
  destruct (for_each_returns env (pages_of env path) ([], []) Hok)
    as (tr' & [h ps] & Hloop).
  unfold mbind, M_bind. simpl. rewrite Hloop. simpl. by repeat eexists.
Qed.

(** C8: when [main] ends with a document, the document is a dictionary
    whose ["pages"] list has exactly one record per page that the engine
    reports for the PDF, in the engine's order; each record carries the number
    of its page and, under each of [texts], [titles], [lists], [tables] and
    [figures], a list with one value per detected item, hence the empty list,
    never a missing key, when nothing of the category was detected. *)
Theorem C8_page_records (env : Env) (input_path : string)
    (trace : list event) (data : json) (htmls : list string) :
  main env input_path = (trace, inr (Some (data, htmls))) →
  ∃ trace0 final_pdf_path entries,
    to_pdf env input_path = (trace0, inr final_pdf_path) ∧
    data = JDict {[ "pages" := JList entries ]} ∧
    length entries = length (pages_of env final_pdf_path) ∧
    Forall2 page_record (pages_of env final_pdf_path) entries ∧
    (∀ i page entry key,
       pages_of env final_pdf_path !! i = Some page →
       entries !! i = Some entry → key ∈ categories →
       detected page key = 0 →
       ∃ d, entry = JDict d ∧ d !! key = Some (JList [])).
Proof.
  unfold main. intros H.
  destruct (to_pdf env input_path) as [trace0 [e|path]] eqn:Hpdf.
  { apply bind_inr in H as (? & [] & ? & _ & H & _).
    apply bind_inr in H as (? & [] & ? & _ & H & _). discriminate H. }
  exists trace0, path.
  do 6 (apply bind_inr in H as (? & [] & ? & _ & H & _)).
  apply bind_inr in H as (? & [h ps] & ? & Hloop & H & _).
  apply bind_inr in H as (? & [] & ? & _ & H & _).
  injection H as _ <- <-.
  apply for_each_page_records in Hloop as (entries & -> & Hall).
  exists entries. simpl. split; [done|]. split; [done|].
  split; [symmetry; by eapply Forall2_length|]. split; [done|].
  intros i page entry key Hpage Hentry Hkey Hzero.
  destruct (Forall2_lookup_lr _ _ _ _ _ _ Hall Hpage Hentry)
    as (d & -> & _ & Hcats).
  exists d. split; [done|].
  destruct (Hcats key Hkey) as (l & Hl & Hlen).
  rewrite Hzero in Hlen. by destruct l.
Qed.

Lemma C8_page_records_witness :
  ∃ entries,
    (main sample_env "input/sample.pdf").2
    = inr (Some (JDict {[ "pages" := JList entries ]},
                 ["<h3>Page 2 - Table 1</h3>"
                  +:+ table_to_html [mkCell 0 0 "A"; mkCell 0 1 "B";
                                     mkCell 1 0 "C"; mkCell 1 1 "D"]])) ∧
    length entries = 2.
Proof.
  destruct (main sample_env "input/sample.pdf") as [trace r] eqn:Hmain.
  assert (∃ data htmls, r = inr (Some (data, htmls))
            ∧ htmls = ["<h3>Page 2 - Table 1</h3>"
                       +:+ table_to_html [mkCell 0 0 "A"; mkCell 0 1 "B";
                                          mkCell 1 0 "C"; mkCell 1 1 "D"]])
    as (data & htmls & -> & Hh).
  { vm_compute in Hmain. injection Hmain as _ <-. by repeat eexists. }
  destruct (C8_page_records sample_env "input/sample.pdf" trace data htmls Hmain)
    as (trace0 & path & entries & _ & -> & Hlen & _).
  exists entries. simpl. rewrite Hh. split; [reflexivity|exact Hlen].
Defined.

(** ** C9: the enumeration order does not show in the HTML *)

(** C9: two enumerations of the same cells, no two of them at the same
    coordinate, give the same HTML, character for character. *)
Theorem C9_html_order_independent (cells1 cells2 : list Cell) :
  cells1 ≡ₚ cells2 → NoDup (coord <$> cells1) →
  table_to_html cells1 = table_to_html cells2.
Proof.
  intros Hperm Hnd. unfold table_to_html, rows_of.
  by rewrite (rows_of_permutation ∅ cells1 cells2).
Qed.

Lemma C9_html_order_independent_witness :
  table_to_html [mkCell 0 0 "A"; mkCell 1 1 "B"; mkCell 0 1 "C"]
  = table_to_html [mkCell 1 1 "B"; mkCell 0 1 "C"; mkCell 0 0 "A"].
Proof.
  apply C9_html_order_independent.
  - change ([mkCell 0 0 "A"] ++ [mkCell 1 1 "B"; mkCell 0 1 "C"]
            ≡ₚ [mkCell 1 1 "B"; mkCell 0 1 "C"] ++ [mkCell 0 0 "A"]).
    apply Permutation_app_comm.
  - simpl. repeat constructor; rewrite ?elem_of_cons, ?elem_of_nil;
      unfold coord; simpl; intuition congruence.
Defined.

(** ** C10: no escaping *)

(** C10: the text of a cell, after the line feeds are replaced and the ends
    are stripped, stands between [<td>] and [</td>] as it is; nothing is
    escaped, so [<], [>] and [&] of the text are in the HTML. *)
Theorem C10_text_not_escaped :
  (∀ pre cell post,
     (∀ x, x ∈ post → coord x ≠ coord cell) →
     PyStr.occurs_in
       ("    <td>" +:+ PyStr.strip (PyStr.replace_nl (text cell))
        +:+ "</td>" +:+ PyStr.nl)
       (table_to_html (pre ++ cell :: post))) ∧
  table_to_html [mkCell 0 0 " <b>R&D</b> "]
  = "<table border='1' cellspacing='0' cellpadding='5' style='border-collapse: collapse; margin-bottom: 20px;'>
  <tr>
    <td><b>R&D</b></td>
  </tr>
</table>
".
Proof.
  split; [|vm_compute; reflexivity].
  intros pre cell post Hpost.
  pose proof (last_at_split pre cell post Hpost) as Hlast.
  apply rows_at_last, html_layout_elem in Hlast as (items & Hr & Hc).
  unfold table_to_html. rewrite render_layout.
  by eapply print_layout_occurs.
Qed.

(** * Further properties of the code *)

(** ** The two exports of a table, side by side *)

Lemma isspace_replace (a : ascii) :
  PyStr.isspace (if Ascii.eqb a PyStr.LF then PyStr.SPACE else a)
  = PyStr.isspace a.
Proof.
  destruct (Ascii.eqb a PyStr.LF) eqn:Ha; [|done].
  apply Ascii.eqb_eq in Ha. by subst.
Qed.

Lemma lstrip_replace_nl (s : string) :
  PyStr.lstrip (PyStr.replace_nl s) = PyStr.replace_nl (PyStr.lstrip s).
Proof.
  induction s as [|a s IH]; [done|]. simpl.
  rewrite isspace_replace. by destruct (PyStr.isspace a).
Qed.

Lemma rstrip_replace_nl (s : string) :
  PyStr.rstrip (PyStr.replace_nl s) = PyStr.replace_nl (PyStr.rstrip s).
Proof.
  induction s as [|a s IH]; [done|]. simpl.
  rewrite IH, isspace_replace.
  destruct (PyStr.rstrip s); simpl; [by destruct (PyStr.isspace a)|done].
Qed.

(** Stripping and replacing the line feeds commute: a line feed and the
    space that replaces it are both white space. *)
Lemma strip_replace_nl (s : string) :
  PyStr.strip (PyStr.replace_nl s) = PyStr.replace_nl (PyStr.strip s).
Proof.
  unfold PyStr.strip. by rewrite lstrip_replace_nl, rstrip_replace_nl.
Qed.

(** X4: wherever [table_to_html] has a text for a coordinate, the JSON grid
    of [main] has one at the same coordinate, and the HTML text is the JSON
    text with its line feeds replaced by spaces. *)
Theorem html_text_is_json_text_without_line_feeds
    (cells : list Cell) (r c : nat) (t : string) :
  rows_at (rows_of cells) r c = Some t →
  ∃ t', grid_at (rows_json_of cells) r c = Some t' ∧ t = PyStr.replace_nl t'.
Proof.
  rewrite rows_at_rows_of. intros Ht.
  destruct (last_at (r, c) cells) as [cell|] eqn:Hlast; [|done].
  injection Ht as <-.
  assert (cell ∈ cells ∧ coord cell = (r, c)) as [Hin [= <- <-]].
  { apply last_Some_elem_of, list_elem_of_filter in Hlast. tauto. }
  exists (json_text (text cell)). split.
  - by apply grid_at_last.
  - simpl. unfold html_text. by rewrite json_text_strip, strip_replace_nl.
Qed.

Lemma html_text_is_json_text_without_line_feeds_witness :
  ∃ t', grid_at (rows_json_of [mkCell 0 1 (" a" +:+ PyStr.nl +:+ "b ")]) 0 1
        = Some t' ∧ "a b" = PyStr.replace_nl t'.
Proof.
  apply (html_text_is_json_text_without_line_feeds
           [mkCell 0 1 (" a" +:+ PyStr.nl +:+ "b ")] 0 1 "a b").
  vm_compute. reflexivity.
Defined.

Lemma filter_ext_in {A} (P Q : A → Prop)
    `{∀ x, Decision (P x)} `{∀ x, Decision (Q x)} (l : list A) :
  (∀ x, x ∈ l → P x ↔ Q x) → filter P l = filter Q l.
Proof.
  induction l as [|x l IH]; intros Hl; [done|].
  rewrite !filter_cons, IH by (intros y Hy; apply Hl; by right).
  destruct (decide (P x)) as [HP|HP], (decide (Q x)) as [HQ|HQ]; try done.
  - destruct HQ. apply Hl; [left|done].
  - destruct HP. apply Hl; [left|done].
Qed.

(** The rows that the filter of [main] keeps are counted by their indices. *)
Lemma filter_any_length (g : list (list string)) :
  length (List.filter any g) = length (text_rows g).
Proof.
  unfold text_rows. induction g as [|row g IH] using rev_ind; [done|].
  replace (length (g ++ [row])) with (S (length g))
    by (rewrite length_app; simpl; lia).
  rewrite List.filter_app, seq_S, filter_app, !length_app.
  rewrite Nat.add_0_l.
  rewrite (filter_ext_in _ (λ r, Is_true (any (default [] (g !! r))))).
  2:{ intros r Hr%elem_of_seq. by rewrite lookup_app_l by lia. }
  rewrite IH. f_equal. rewrite filter_cons, filter_nil.
  rewrite list_lookup_middle by done. simpl.
  destruct (any row); simpl; by rewrite ?decide_True, ?decide_False by done.
Qed.

Lemma text_rows_NoDup (g : list (list string)) : NoDup (text_rows g).
Proof. apply NoDup_filter, NoDup_seq. Qed.

(** A row of the grid with text is the row of some cell. *)
Lemma text_row_has_cell (cells : list Cell) (r : nat) :
  r ∈ text_rows (rows_json_of cells) →
  ∃ cell, cell ∈ cells ∧ row_number cell = r.
Proof.
  unfold text_rows. intros [Hany Hr%elem_of_seq]%list_elem_of_filter.
  destruct (rows_json_of_spec cells) as [Hlen Hspec].
  destruct (Hspec r) as (row & Hrow & Hw & Hcols); [lia|].
  rewrite Hrow in Hany. simpl in Hany. apply Is_true_true, any_true in Hany.
  destruct Hany as (s & [c Hc]%list_elem_of_lookup & Hne).
  assert (c < row_width cells r) as Hlt.
  { rewrite <- Hw. by apply lookup_lt_is_Some_1. }
  rewrite (Hcols c Hlt) in Hc. injection Hc as Hs.
  destruct (last_at (r, c) cells) as [cell|] eqn:Hlast; [|by destruct Hne].
  apply last_Some_elem_of, list_elem_of_filter in Hlast as [[= Hrc _] Hin].
  by exists cell.
Qed.

(** And, where every cell has text, the other way round. *)
Lemma cell_row_is_text_row (cells : list Cell) (cell : Cell) :
  (∀ x, x ∈ cells → json_text (text x) ≠ "") → cell ∈ cells →
  row_number cell ∈ text_rows (rows_json_of cells).
Proof.
  intros Htext Hin. unfold text_rows.
  destruct (rows_json_of_spec cells) as [Hlen Hspec].
  destruct (coord_in_bounds cells cell Hin) as [Hr _].
  destruct (Hspec _ Hr) as (row & Hrow & _).
  apply list_elem_of_filter. split; [|apply elem_of_seq; lia].
  rewrite Hrow. simpl. apply Is_true_true.
  by apply (row_of_cell_has_text cells cell).
Qed.

(** X5: the string that [table_to_html] returns is the printed layout of
    its dictionary, with one [<tr>] element per row of the layout; the
    ["rows"] entry of the table never has more rows than that layout, that
    is, than [table_to_html] writes [<tr>] elements, and it has as many when
    every cell has text left after stripping. *)
Theorem json_rows_at_most_html_rows (cells : list Cell) :
  table_to_html cells = print_layout (html_layout (rows_of cells)) ∧
  length (json_rows cells) ≤ length (html_layout (rows_of cells)) ∧
  ((∀ x, x ∈ cells → json_text (text x) ≠ "") →
   length (json_rows cells) = length (html_layout (rows_of cells))).
Proof.
  split; [apply render_layout|].
  unfold json_rows, html_layout. rewrite filter_any_length, length_fmap.
  split.
  - apply submseteq_length, NoDup_submseteq; [apply text_rows_NoDup|].
    intros r Hr. apply sorted_keys_elem_of, rows_of_dom.
    by apply text_row_has_cell.
  - intros Htext. apply Permutation_length, NoDup_Permutation.
    + apply text_rows_NoDup.
    + apply sorted_keys_NoDup.
    + intros r. rewrite sorted_keys_elem_of, rows_of_dom. split.
      * apply text_row_has_cell.
      * intros (cell & Hin & <-). by apply cell_row_is_text_row.
Qed.

(** ** A table of blank cells *)

Lemma lstrip_all_space (s : string) :
  PyStr.all_space s = true → PyStr.lstrip s = "".
Proof.
  induction s as [|a s IH]; [done|]. simpl.
  intros [Ha Hs]%andb_true_iff. rewrite Ha. by apply IH.
Qed.

Lemma strip_all_space (s : string) :
  PyStr.all_space s = true → PyStr.strip s = "".
Proof. intros Hs. unfold PyStr.strip. by rewrite lstrip_all_space. Qed.

Lemma replace_nl_all_space (s : string) :
  PyStr.all_space (PyStr.replace_nl s) = PyStr.all_space s.
Proof.
  induction s as [|a s IH]; [done|]. simpl. by rewrite IH, isspace_replace.
Qed.

Lemma filter_any_nil (g : list (list string)) :
  (∀ row, row ∈ g → any row = false) → List.filter any g = [].
Proof.
  induction g as [|row g IH]; intros Hg; [done|]. simpl.
  rewrite (Hg row) by left. apply IH. intros row' Hin. apply Hg. by right.
Qed.

(** X11: when the text of every cell is white space only (or empty), the
    ["rows"] entry of the table is the empty list, while the string that
    [table_to_html] returns is the printed layout of its dictionary, in which
    every [<td>] is empty and every cell has its [<td>] at the cell's column
    in the [<tr>] of the cell's row; so, when there is a cell at all, the line
    of an empty [<td>] is in the string. *)
Theorem blank_table (cells : list Cell) :
  (∀ x, x ∈ cells → PyStr.all_space (text x) = true) →
  json_rows cells = [] ∧
  table_to_html cells = print_layout (html_layout (rows_of cells)) ∧
  (∀ r items c t,
     (r, items) ∈ html_layout (rows_of cells) → (c, t) ∈ items → t = "") ∧
  (∀ cell, cell ∈ cells →
     (∃ items,
        (row_number cell, items) ∈ html_layout (rows_of cells) ∧
        (column_number cell, "") ∈ items) ∧
     PyStr.occurs_in ("    <td></td>" +:+ PyStr.nl) (table_to_html cells)).
Proof.
  intros Hblank.
  assert (Hat : ∀ r c t, rows_at (rows_of cells) r c = Some t → t = "").
  { intros r c t. rewrite rows_at_rows_of.
    destruct (last_at (r, c) cells) as [x|] eqn:Hx; [|done].
    intros [= <-]. simpl. unfold html_text.
    apply strip_all_space. rewrite replace_nl_all_space. apply Hblank.
    apply last_Some_elem_of, list_elem_of_filter in Hx. tauto. }
  split; [|split; [apply render_layout|split]].
  - unfold json_rows. apply filter_any_nil. intros row Hrow.
    destruct (any row) eqn:Hany; [|done]. exfalso.
    apply list_elem_of_lookup in Hrow as [r Hr].
    destruct (rows_json_of_spec cells) as [Hlen Hspec].
    destruct (Hspec r) as (row' & Hrow' & Hw & Hcols).
    { rewrite <- Hlen. by eapply lookup_lt_Some. }
    rewrite Hr in Hrow'. injection Hrow' as <-.
    apply any_true in Hany as (s & [c Hc]%list_elem_of_lookup & Hne).
    rewrite Hcols in Hc by (rewrite <- Hw; by eapply lookup_lt_Some).
    injection Hc as Hs. apply Hne. rewrite <- Hs.
    destruct (last_at (r, c) cells) as [x|] eqn:Hlast; [|done]. simpl.
    apply last_Some_elem_of, list_elem_of_filter in Hlast as [_ Hin].
    rewrite json_text_strip. by apply strip_all_space, Hblank.
  - intros r items c t Hr Hc. unfold html_layout in Hr.
    apply list_elem_of_fmap in Hr as (r' & [= <- ->] & Hr').
    unfold row_items in Hc.
    apply list_elem_of_fmap in Hc as (c' & [= <- ->] & Hc').
    apply sorted_keys_elem_of, elem_of_dom in Hr' as [row Hrow].
    rewrite Hrow in *. simpl in *.
    apply sorted_keys_elem_of, elem_of_dom in Hc' as [t Ht].
    rewrite Ht. simpl. apply (Hat r c). unfold rows_at. by rewrite Hrow.
  - intros cell Hin.
    assert (rows_at (rows_of cells) (row_number cell) (column_number cell)
            = Some "") as Hcell.
    { assert (is_Some (last_at (row_number cell, column_number cell) cells))
        as [x Hx].
      { apply last_at_is_Some. by exists cell. }
      pose proof (rows_at_rows_of cells (row_number cell) (column_number cell))
        as Hr.
      rewrite Hx in Hr. simpl in Hr. rewrite Hr. f_equal.
      apply (Hat (row_number cell) (column_number cell)). by rewrite Hr. }
    destruct (html_layout_elem _ _ _ _ Hcell) as (items & Hr & Hc).
    split; [by exists items|].
    unfold table_to_html. rewrite render_layout.
    by apply (print_layout_occurs _ (row_number cell) items
                (column_number cell) "").
Qed.

Lemma blank_table_witness :
  json_rows [mkCell 0 0 " "; mkCell 1 2 ""] = [] ∧
  table_to_html [mkCell 0 0 " "; mkCell 1 2 ""]
  = "<table border='1' cellspacing='0' cellpadding='5' style='border-collapse: collapse; margin-bottom: 20px;'>
  <tr>
    <td></td>
  </tr>
  <tr>
    <td></td>
  </tr>
</table>
".
Proof.
  split; [|vm_compute; reflexivity].
  apply (blank_table [mkCell 0 0 " "; mkCell 1 2 ""]).
  intros x Hx. apply elem_of_cons in Hx as [->|Hx]; [reflexivity|].
  apply list_elem_of_singleton in Hx as ->. reflexivity.
Defined.

(** ** The enumeration order and the JSON grid *)

Lemma grid_height_permutation (cells1 cells2 : list Cell) :
  cells1 ≡ₚ cells2 → grid_height cells1 = grid_height cells2.
Proof. intros Hperm. unfold grid_height. by rewrite Hperm. Qed.

Lemma row_width_permutation (cells1 cells2 : list Cell) (r : nat) :
  cells1 ≡ₚ cells2 → row_width cells1 r = row_width cells2 r.
Proof. intros Hperm. unfold row_width, cells_of_row. by rewrite Hperm. Qed.

(** With no two cells at one coordinate, at most one cell is found there. *)
Lemma filter_coord_short (rc : nat * nat) (cells : list Cell) :
  NoDup (coord <$> cells) →
  length (filter (λ cell, coord cell = rc) cells) ≤ 1.
Proof.
  induction cells as [|x cells IH]; [simpl; lia|].
  rewrite fmap_cons. intros [Hx Hnd]%NoDup_cons.
  rewrite filter_cons. destruct (decide (coord x = rc)) as [Hrc|Hrc].
  - rewrite filter_none; [simpl; lia|].
    intros y Hy Hyc. apply Hx, list_elem_of_fmap. exists y.
    split; [congruence|done].
  - by apply IH.
Qed.

Lemma last_at_permutation (rc : nat * nat) (cells1 cells2 : list Cell) :
  cells1 ≡ₚ cells2 → NoDup (coord <$> cells1) →
  last_at rc cells1 = last_at rc cells2.
Proof.
  intros Hperm Hnd. unfold last_at.
  pose proof (filter_coord_short rc cells1 Hnd) as Hshort.
  assert (Hf : filter (λ cell, coord cell = rc) cells1
               ≡ₚ filter (λ cell, coord cell = rc) cells2)
    by (by rewrite Hperm).
  destruct (filter (λ cell, coord cell = rc) cells1) as [|x [|y l]].
  - apply Permutation_nil_l in Hf. by rewrite <- Hf.
  - apply Permutation_singleton_l in Hf. by rewrite <- Hf.
  - simpl in Hshort. lia.
Qed.

(** The description of the grid fits one grid only. *)
Lemma grid_spec_unique (cells : list Cell) (g1 g2 : list (list string)) :
  grid_spec cells g1 → grid_spec cells g2 → g1 = g2.
Proof.
  intros [Hlen1 Hrows1] [Hlen2 Hrows2]. apply list_eq. intros r.
  destruct (decide (r < grid_height cells)) as [Hr|Hr].
  - destruct (Hrows1 r Hr) as (row1 & -> & Hw1 & Hc1).
    destruct (Hrows2 r Hr) as (row2 & -> & Hw2 & Hc2).
    f_equal. apply list_eq. intros c.
    destruct (decide (c < row_width cells r)) as [Hc|Hc].
    + by rewrite Hc1, Hc2.
    + by rewrite !lookup_ge_None_2 by lia.
  - by rewrite !lookup_ge_None_2 by lia.
Qed.

(** X6: two enumerations of the same cells, no two of them at the same
    coordinate, give the same JSON grid and the same ["rows"] entry. *)
Theorem json_grid_order_independent (cells1 cells2 : list Cell) :
  cells1 ≡ₚ cells2 → NoDup (coord <$> cells1) →
  rows_json_of cells1 = rows_json_of cells2 ∧
  json_rows cells1 = json_rows cells2.
Proof.
  intros Hperm Hnd.
  assert (rows_json_of cells1 = rows_json_of cells2) as Heq.
  { apply (grid_spec_unique cells1); [apply rows_json_of_spec|].
    destruct (rows_json_of_spec cells2) as [Hlen Hrows].
    unfold grid_spec.
    rewrite (grid_height_permutation cells1 cells2 Hperm). split; [done|].
    intros r Hr. destruct (Hrows r Hr) as (row & Hrow & Hw & Hcols).
    exists row. rewrite (row_width_permutation cells1 cells2 r Hperm).
    split; [done|]. split; [done|]. intros c Hc.
    rewrite (last_at_permutation (r, c) cells1 cells2 Hperm Hnd).
    by apply Hcols. }
  split; [done|]. unfold json_rows. by rewrite Heq.
Qed.

Lemma json_grid_order_independent_witness :
  rows_json_of [mkCell 0 0 "A"; mkCell 1 1 "B"; mkCell 0 1 "C"]
  = rows_json_of [mkCell 1 1 "B"; mkCell 0 1 "C"; mkCell 0 0 "A"].
Proof.
  apply json_grid_order_independent.
  - change ([mkCell 0 0 "A"] ++ [mkCell 1 1 "B"; mkCell 0 1 "C"]
            ≡ₚ [mkCell 1 1 "B"; mkCell 0 1 "C"] ++ [mkCell 0 0 "A"]).
    apply Permutation_app_comm.
  - simpl. repeat constructor; rewrite ?elem_of_cons, ?elem_of_nil;
      unfold coord; simpl; intuition congruence.
Defined.

(** ** Where [to_pdf] puts a converted document *)

Lemma string_length_app (s t : string) :
  String.length (s +:+ t) = String.length s + String.length t.
Proof.
  induction s as [|a s IH]; [done|].
  rewrite string_app_cons. simpl. by rewrite IH.
Qed.

Lemma has_char_app (c : ascii) (s t : string) :
  has_char c (s +:+ t) = has_char c s || has_char c t.
Proof.
  induction s as [|a s IH]; [done|].
  rewrite string_app_cons. simpl. by rewrite IH, orb_assoc.
Qed.

Lemma has_char_substring (c : ascii) (s : string) (n m : nat) :
  has_char c s = false → has_char c (substring n m s) = false.
Proof.
  revert n m; induction s as [|a s IH]; intros n m Hs.
  - by destruct n, m.
  - simpl in Hs. apply orb_false_iff in Hs as [Ha Hs].
    destruct n as [|n]; [destruct m as [|m]|]; simpl; [done| |by apply IH].
    by rewrite Ha, IH.
Qed.

Lemma substring_0_length (s : string) : substring 0 (String.length s) s = s.
Proof. induction s as [|a s IH]; [done|]. simpl. by rewrite IH. Qed.

Lemma substring_app_r (s t : string) :
  substring (String.length s) (String.length t) (s +:+ t) = t.
Proof.
  induction s as [|a s IH]; [apply substring_0_length|].
  rewrite string_app_cons. simpl. apply IH.
Qed.

Lemma rfind_None (c : ascii) (s : string) :
  has_char c s = false → PurePath.rfind c s = None.
Proof.
  induction s as [|a s IH]; [done|]. simpl.
  intros [Ha Hs]%orb_false_iff. by rewrite IH, Ha.
Qed.

Lemma rfind_app (c : ascii) (s t : string) :
  has_char c t = false →
  PurePath.rfind c (s +:+ String c t) = Some (String.length s).
Proof.
  intros Ht. induction s as [|a s IH].
  - rewrite string_app_nil_l. simpl. by rewrite rfind_None, Ascii.eqb_refl.
  - rewrite string_app_cons. simpl. by rewrite IH.
Qed.

(** The name of a parsed path is empty or a component. *)
Lemma name_component (s : string) :
  PurePath.name (PurePath.Path s) = "" ∨
  component_ok (PurePath.name (PurePath.Path s)).
Proof.
  destruct (Path_wf s) as [_ Htail]. unfold PurePath.name.
  destruct (last (PurePath.tail (PurePath.Path s))) as [x|] eqn:Hlast;
    [right|by left].
  simpl. rewrite Forall_forall in Htail.
  by apply Htail, last_Some_elem_of.
Qed.

(** The stem of a path that has a suffix: not empty, without a slash, and
    it does not start with one. *)
Lemma stem_of_suffixed (s : string) :
  PurePath.suffix (PurePath.Path s) ≠ "" →
  ∃ a rest, PurePath.stem (PurePath.Path s) = String a rest ∧
            Ascii.eqb a PurePath.SEP = false ∧
            has_char PurePath.SEP (String a rest) = false.
Proof.
  unfold PurePath.suffix, PurePath.stem, PurePath.suffix_index.
  destruct (name_component s) as [Hname|[_ Hsep]].
  { rewrite Hname. by simpl. }
  destruct (PurePath.rfind PurePath.DOT (PurePath.name (PurePath.Path s)))
    as [i|]; [|done].
  destruct (0 <? i) eqn:Hi; [|done]. simpl.
  destruct (i <? _) eqn:Hlen; [|done]. intros _.
  apply Nat.ltb_lt in Hi, Hlen.
  destruct (PurePath.name (PurePath.Path s)) as [|a nm]; [simpl in Hlen; lia|].
  destruct i as [|i]; [lia|]. simpl.
  exists a, (substring 0 i nm).
  simpl in Hsep. apply orb_false_iff in Hsep as [Ha Hnm].
  split; [done|]. split; [done|]. simpl.
  by rewrite Ha, has_char_substring.
Qed.

(** A file name put under the temporary directory. *)
Lemma temp_child (a : ascii) (rest : string) :
  Ascii.eqb a PurePath.SEP = false →
  has_char PurePath.SEP (String a rest) = false →
  rest ≠ "" →
  PurePath.Path ("temp_processing/" +:+ String a rest)
  = PurePath.mk "" ["temp_processing"; String a rest] ∧
  PurePath.to_str (TEMP_DIR /: String a rest)
  = "temp_processing/" +:+ String a rest.
Proof.
  intros Ha Hsep Hrest.
  assert (HP : PurePath.Path ("temp_processing/" +:+ String a rest)
               = PurePath.mk "" ["temp_processing"; String a rest]).
  { unfold PurePath.Path. rewrite decide_False by done.
    change ("temp_processing/" +:+ String a rest)
      with (String (ascii_of_nat 116)
              ("emp_processing" +:+ String PurePath.SEP (String a rest))).
    rewrite splitroot_relative by done. f_equal.
    change (String (ascii_of_nat 116)
              ("emp_processing" +:+ String PurePath.SEP (String a rest)))
      with ("temp_processing" +:+ String PurePath.SEP (String a rest)).
    rewrite split_app_sep by done. rewrite split_no_char by done.
    rewrite filter_all; [done|].
    repeat constructor; try done.
    intros [= -> ->]. by destruct Hrest. }
  split; [done|].
  unfold PurePath.truediv.
  replace (PurePath.posix_join (PurePath.to_str TEMP_DIR) (String a rest))
    with ("temp_processing/" +:+ String a rest).
  2:{ unfold PurePath.posix_join. simpl PurePath.starts_with_sep.
      rewrite Ha. reflexivity. }
  rewrite HP. reflexivity.
Qed.

(** What a successful conversion returns. *)
Lemma to_pdf_converted (env : Env) (input_path : string)
    (trace : list event) (r : string) :
  to_pdf env input_path = (trace, inr r) →
  PyStr.lower (PurePath.suffix (PurePath.Path input_path)) ≠ ".pdf" →
  PurePath.suffix (PurePath.Path input_path) ≠ "" ∧
  r = PurePath.to_str
        (TEMP_DIR /: (PurePath.stem (PurePath.Path input_path) +:+ ".pdf")).
Proof.
  unfold to_pdf. intros H Hext.
  apply bind_inr in H as (? & [] & ? & _ & H & _).
  rewrite decide_False in H by done.
  apply bind_inr in H as (? & [] & ? & Hconv & H & _).
  injection H as _ <-. split; [|done].
  intros Hsuf. rewrite Hsuf in Hconv. simpl in Hconv.
  repeat (rewrite decide_False in Hconv
            by (rewrite ?elem_of_cons, ?elem_of_nil; intuition discriminate)).
  discriminate Hconv.
Qed.

(** X1: when [to_pdf] converts a document (the extension is known and is
    not [.pdf], and the converter does not fail), it returns
    ["temp_processing/<stem>.pdf"], where the stem is the file name without
    its last suffix: the stem is not empty and has no slash, so the PDF lies
    directly in the temporary directory and the directory of the input plays
    no part in its name. *)
Theorem converted_output_location (env : Env) (input_path : string)
    (trace : list event) (r : string) :
  to_pdf env input_path = (trace, inr r) →
  PyStr.lower (PurePath.suffix (PurePath.Path input_path)) ≠ ".pdf" →
  r = "temp_processing/" +:+ PurePath.stem (PurePath.Path input_path) +:+ ".pdf" ∧
  PurePath.stem (PurePath.Path input_path) ≠ "" ∧
  has_char PurePath.SEP (PurePath.stem (PurePath.Path input_path)) = false.
Proof.
  intros Hrun Hext.
  destruct (to_pdf_converted env input_path trace r Hrun Hext) as [Hsuf ->].
  destruct (stem_of_suffixed input_path Hsuf) as (a & rest & Hstem & Ha & Hsep).
  rewrite Hstem. split; [|split; done].
  rewrite string_app_cons.
  apply temp_child; [done| |by destruct rest].
  rewrite <- string_app_cons, has_char_app, Hsep. reflexivity.
Qed.

Lemma converted_output_location_witness :
  "temp_processing/report.v2.pdf"
  = "temp_processing/"
    +:+ PurePath.stem (PurePath.Path "/home/user/docs//report.v2.DOCX")
    +:+ ".pdf".
Proof.
  refine (proj1 (converted_output_location sample_env
                   "/home/user/docs//report.v2.DOCX"
                   [Print "[*] Converting .docx to PDF...";
                    Soffice "temp_processing" "/home/user/docs/report.v2.DOCX"]
                   "temp_processing/report.v2.pdf" _ _)).
  - vm_compute. reflexivity.
  - vm_compute. discriminate.
Defined.

(** X2: what [to_pdf] returns after a conversion is a path that [to_pdf]
    takes for a PDF: given back to [to_pdf], it is returned as it is, with no
    conversion. *)
Theorem converted_output_is_accepted (env : Env) (input_path : string)
    (trace : list event) (r : string) :
  to_pdf env input_path = (trace, inr r) →
  PyStr.lower (PurePath.suffix (PurePath.Path input_path)) ≠ ".pdf" →
  to_pdf env r = ([Print "[*] Converting .pdf to PDF..."], inr r).
Proof.
  intros Hrun Hext.
  destruct (to_pdf_converted env input_path trace r Hrun Hext) as [Hsuf ->].
  destruct (stem_of_suffixed input_path Hsuf) as (a & rest & Hstem & Ha & Hsep).
  rewrite Hstem, string_app_cons.
  assert (Hsep' : has_char PurePath.SEP (String a (rest +:+ ".pdf")) = false).
  { rewrite <- string_app_cons, has_char_app, Hsep. reflexivity. }
  destruct (temp_child a (rest +:+ ".pdf") Ha Hsep') as [HP ->];
    [by destruct rest|].
  assert (Hsuffix : PurePath.suffix (PurePath.mk "" ["temp_processing";
                                        String a (rest +:+ ".pdf")]) = ".pdf").
  { unfold PurePath.suffix, PurePath.suffix_index.
    change (PurePath.name (PurePath.mk "" ["temp_processing";
                                           String a (rest +:+ ".pdf")]))
      with (String a rest +:+ String PurePath.DOT "pdf").
    rewrite rfind_app by done.
    rewrite string_length_app.
    replace (0 <? String.length (String a rest)) with true
      by (symmetry; apply Nat.ltb_lt; simpl; lia).
    replace (String.length (String a rest)
             <? String.length (String a rest)
                + String.length (String PurePath.DOT "pdf") - 1) with true
      by (symmetry; apply Nat.ltb_lt; simpl; lia).
    simpl andb. cbv iota.
    replace (String.length (String a rest)
             + String.length (String PurePath.DOT "pdf")
             - String.length (String a rest))
      with (String.length (String PurePath.DOT "pdf")) by lia.
    apply substring_app_r. }
  unfold to_pdf. rewrite HP, Hsuffix.
  rewrite decide_True by reflexivity. reflexivity.
Qed.

Lemma converted_output_is_accepted_witness :
  to_pdf sample_env "temp_processing/scan.pdf"
  = ([Print "[*] Converting .pdf to PDF..."], inr "temp_processing/scan.pdf").
Proof.
  refine (converted_output_is_accepted sample_env "in/scan.JPG"
            [Print "[*] Converting .jpg to PDF...";
             Img2Pdf "in/scan.JPG" "temp_processing/scan.pdf"]
            "temp_processing/scan.pdf" _ _).
  - vm_compute. reflexivity.
  - vm_compute. discriminate.
Defined.

(** ** A run of [main], step by step *)

Lemma bind_inr_trace {A B} (m : M A) (f : A → M B) trace y :
  m ≫= f = (trace, inr y) →
  ∃ x, m = (m.1, inr x) ∧ f x = ((f x).1, inr y) ∧ trace = m.1 ++ (f x).1.
Proof.
  intros (tr1 & x & tr2 & -> & Hf & ->)%bind_inr. exists x.
  by rewrite Hf.
Qed.

Lemma call_inr (env : Env) (ev : event) trace x :
  call env ev = (trace, inr x) → trace = [ev] ∧ fails env ev = None.
Proof.
  unfold call. destruct (fails env ev); [done|]. by intros [= <- _].
Qed.

Lemma foldl_append_lookup_eq {A} key (f : A → json) (items : list A)
    (d : gmap string json) (l : list json) :
  d !! key = Some (JList l) →
  foldl (λ d x, dict_append key (f x) d) d items !! key
  = Some (JList (l ++ (f <$> items))).
Proof.
  revert d l; induction items as [|x items IH]; intros d l Hd; simpl.
  - by rewrite app_nil_r.
  - rewrite (IH _ (l ++ [f x])).
    + by rewrite <- app_assoc.
    + unfold dict_append. by rewrite lookup_alter_eq, Hd.
Qed.

Lemma foldl_table_step (page_num : Z) (its : list (Z * Table.t))
    (h : list string) (d : gmap string json) (l : list json) :
  d !! "tables" = Some (JList l) →
  (foldl (table_step page_num) (h, d) its).1
  = h ++ (wrapped_table_html page_num <$> its) ∧
  (foldl (table_step page_num) (h, d) its).2 !! "tables"
  = Some (JList (l ++ (table_entry <$> its))).
Proof.
  revert h d l; induction its as [|[idx table] its IH]; intros h d l Hd; simpl.
  - by rewrite !app_nil_r.
  - destruct (IH (h ++ [wrapped_table_html page_num (idx, table)])
                (dict_append "tables" (table_entry (idx, table)) d)
                (l ++ [table_entry (idx, table)])) as [IH1 IH2].
    { unfold dict_append. by rewrite lookup_alter_eq, Hd. }
    split.
    + etrans; [exact IH1|]. by rewrite <- app_assoc.
    + etrans; [exact IH2|]. by rewrite <- app_assoc.
Qed.

(** One turn of the page loop that goes well. *)
Lemma page_step_inv (env : Env) (h : list string) (ps : list json)
    (page : Page.t) trace h' ps' :
  page_step env (h, ps) page = (trace, inr (h', ps')) →
  trace = page_events page ∧
  calls_succeeded env trace ∧
  h' = h ++ page_tables_html page ∧
  ∃ d, ps' = ps ++ [JDict d] ∧ page_contents page d.
Proof.
  unfold page_step. intros H.
  apply bind_inr in H as (tr1 & [] & tr2 & [= <-] & H & ->).
  apply bind_inr in H as (tr3 & [] & tr4 & [-> Hok]%call_inr & H & ->).
  cbv zeta in H.
  set (d3 := foldl (λ d lst, dict_append "lists" (layout_entry lst) d) _ _) in H.
  assert (Htables : d3 !! "tables" = Some (JList [])).
  { unfold d3. by rewrite !foldl_append_lookup_ne by done. }
  destruct (foldl_table_step (Page.page_number page)
              (enumerate1 (Page.tables page)) h d3 [] Htables) as [Hh Hd].
  pose proof (tables_part_lookup_ne (Page.page_number page)
                (Page.tables page) h d3) as Hother.
  assert (Hh' : (if decide (Page.tables page ≠ [])
                 then foldl (table_step (Page.page_number page)) (h, d3)
                            (enumerate1 (Page.tables page))
                 else (h, d3)).1 = h ++ page_tables_html page).
  { unfold page_tables_html. destruct (decide (Page.tables page ≠ [])) as [|Hnil].
    - done.
    - destruct (Page.tables page); [|by destruct Hnil].
      simpl. by rewrite app_nil_r. }
  assert (Hd' : (if decide (Page.tables page ≠ [])
                 then foldl (table_step (Page.page_number page)) (h, d3)
                            (enumerate1 (Page.tables page))
                 else (h, d3)).2 !! "tables"
                = Some (JList (table_entry <$> enumerate1 (Page.tables page)))).
  { destruct (decide (Page.tables page ≠ [])) as [|Hnil].
    - done.
    - destruct (Page.tables page); [|by destruct Hnil]. done. }
  destruct (if decide (Page.tables page ≠ []) then _ else _) as [h1 d4].
  simpl in Hh', Hd', Hother.
  injection H as <- <- <-.
  split; [done|]. split.
  { intros ev Hev Hext. simpl in Hev. rewrite !elem_of_cons in Hev.
    destruct Hev as [->|[->|Hev]].
    - by destruct (Hext _ eq_refl).
    - done.
    - by apply elem_of_nil in Hev. }
  split; [done|]. eexists. split; [done|].
  unfold page_contents.
  repeat split.
  - rewrite foldl_append_lookup_ne, Hother by done. unfold d3.
    rewrite !foldl_append_lookup_ne by done.
    by apply (foldl_append_lookup_eq _ _ _ _ []).
  - rewrite foldl_append_lookup_ne, Hother by done. unfold d3.
    rewrite foldl_append_lookup_ne by done.
    apply (foldl_append_lookup_eq _ _ _ _ []).
    by rewrite foldl_append_lookup_ne by done.
  - rewrite foldl_append_lookup_ne, Hother by done. unfold d3.
    apply (foldl_append_lookup_eq _ _ _ _ []).
    by rewrite !foldl_append_lookup_ne by done.
  - by rewrite foldl_append_lookup_ne by done.
  - apply (foldl_append_lookup_eq _ _ _ _ []).
    rewrite Hother by done. unfold d3.
    by rewrite !foldl_append_lookup_ne by done.
Qed.

Lemma calls_succeeded_app (env : Env) (tr1 tr2 : list event) :
  calls_succeeded env tr1 → calls_succeeded env tr2 →
  calls_succeeded env (tr1 ++ tr2).
Proof.
  intros H1 H2 ev [Hev|Hev]%elem_of_app; [by apply H1|by apply H2].
Qed.

(** The page loop, when it goes well. *)
Lemma for_each_inv (env : Env) (pages : list Page.t)
    (h : list string) (ps : list json) trace h' ps' :
  for_each (page_step env) (h, ps) pages = (trace, inr (h', ps')) →
  trace = concat (page_events <$> pages) ∧
  calls_succeeded env trace ∧
  h' = h ++ concat (page_tables_html <$> pages) ∧
  ∃ entries, ps' = ps ++ entries ∧
    Forall2 (λ page entry, ∃ d, entry = JDict d ∧ page_contents page d)
            pages entries.
Proof.
  revert h ps trace; induction pages as [|page pages IH];
    intros h ps trace H; simpl in H.
  - injection H as <- <- <-. split; [done|]. split.
    { intros ev Hev. by apply elem_of_nil in Hev. }
    split; [by rewrite app_nil_r|]. exists []. by rewrite app_nil_r.
  - apply bind_inr in H as (tr1 & [h1 ps1] & tr2 & Hstep & H & ->).
    apply page_step_inv in Hstep as (-> & Hok1 & -> & d & -> & Hd).
    apply IH in H as (-> & Hok2 & -> & entries & -> & Hall).
    split; [done|]. split; [by apply calls_succeeded_app|].
    split; [by rewrite fmap_cons, concat_cons, app_assoc|].
    exists (JDict d :: entries). rewrite <- app_assoc. split; [done|].
    constructor; [by exists d|done].
Qed.

(** A conversion: the events of [to_pdf] and how it ends. *)
Lemma to_pdf_trace (env : Env) (input_path ext : string) :
  ext = PyStr.lower (PurePath.suffix (PurePath.Path input_path)) →
  ((to_pdf env input_path).1
   = [Print ("[*] Converting " +:+ ext +:+ " to PDF...")] ∧
   ((to_pdf env input_path).2
    = inr (PurePath.to_str (PurePath.Path input_path)) ∨
    (to_pdf env input_path).2
    = inl (ValueError ("Unsupported file format: " +:+ ext)))) ∨
  ∃ ev, (to_pdf env input_path).1
        = [Print ("[*] Converting " +:+ ext +:+ " to PDF..."); ev] ∧
        external ev ∧ ¬ engine_event ev ∧
        (to_pdf env input_path).2
        = match fails env ev with
          | Some e => inl e
          | None => inr (PurePath.to_str
                           (TEMP_DIR /: (PurePath.stem (PurePath.Path input_path)
                                         +:+ ".pdf")))
          end.
Proof.
  intros ->.
  unfold to_pdf, call, raise, print, mbind, M_bind, mret, M_ret.
  repeat case_decide; simpl;
    try (left; split; [reflexivity|]; by (left + right));
    right; eexists;
    (destruct (fails env _) eqn:Hf; simpl;
     (split; [reflexivity|]); (split; [done|]);
     (split; [by intros [?|[[? ?]|?]]|]); by rewrite Hf).
Qed.

(** A run of [main] that ends with a document. *)
Lemma main_inv (env : Env) (input_path : string)
    (trace : list event) (data : json) (htmls : list string) :
  main env input_path = (trace, inr (Some (data, htmls))) →
  ∃ trace0 path entries,
    to_pdf env input_path = (trace0, inr path) ∧
    trace = trace0
            ++ [Print "[*] Creating DeepDoctection analyzer..."; GetAnalyzer;
                Print "[*] Analyzing Document..."; Analyze path; ResetState]
            ++ concat (page_events <$> pages_of env path)
            ++ [Print (PyStr.nl +:+ "✅ Done!")] ∧
    calls_succeeded env trace ∧
    htmls = concat (page_tables_html <$> pages_of env path) ∧
    data = JDict {[ "pages" := JList entries ]} ∧
    Forall2 (λ page entry, ∃ d, entry = JDict d ∧ page_contents page d)
            (pages_of env path) entries.
Proof.
  unfold main. intros H.
  destruct (to_pdf env input_path) as [trace0 [e|path]] eqn:Hpdf.
  { apply bind_inr in H as (? & [] & ? & _ & H & _).
    apply bind_inr in H as (? & [] & ? & _ & H & _). discriminate H. }
  exists trace0, path.
  apply bind_inr in H as (? & [] & ? & [= <-] & H & ->).
  apply bind_inr in H as (? & [] & ? & [= <-] & H & ->).
  apply bind_inr in H as (? & [] & ? & [-> Hok1]%call_inr & H & ->).
  apply bind_inr in H as (? & [] & ? & [= <-] & H & ->).
  apply bind_inr in H as (? & [] & ? & [-> Hok2]%call_inr & H & ->).
  apply bind_inr in H as (? & [] & ? & [-> Hok3]%call_inr & H & ->).
  apply bind_inr in H as (? & [h ps] & ? & Hloop & H & ->).
  apply bind_inr in H as (? & [] & ? & [= <-] & H & ->).
  injection H as <- <- <-.
  apply for_each_inv in Hloop as (-> & Hok4 & -> & entries & -> & Hall).
  exists entries. split; [done|]. split.
  { done. }
  split; [|done].
  assert (calls_succeeded env trace0) as Hok0.
  { destruct (to_pdf_trace env input_path _ eq_refl)
      as [[Htr _]|(ev & Htr & _ & _ & Hres)];
      rewrite Hpdf in *; simpl in *; subst trace0; intros ev' Hev' Hext;
      rewrite !elem_of_cons in Hev'.
    - destruct Hev' as [->|Hev']; [by destruct (Hext _ eq_refl)|].
      by apply elem_of_nil in Hev'.
    - destruct Hev' as [->|[->|Hev']]; [by destruct (Hext _ eq_refl)| |].
      + by destruct (fails env ev).
      + by apply elem_of_nil in Hev'. }
  apply calls_succeeded_app; [done|].
  intros ev Hev Hext. simpl in Hev.
  rewrite !elem_of_cons, !elem_of_app in Hev.
  destruct Hev as [->|[->|[->|[->|[->|[Hev|Hev]]]]]]; try done;
    try by destruct (Hext _ eq_refl).
  - by apply Hok4.
  - apply list_elem_of_singleton in Hev as ->. by destruct (Hext _ eq_refl).
Qed.

Lemma sample_run :
  ∃ trace data htmls,
    main sample_env "input/sample.pdf" = (trace, inr (Some (data, htmls))).
Proof.
  destruct (main_returns sample_env "input/sample.pdf") as (tr & d & h & H).
  - done.
  - vm_compute. left.
  - by exists tr, d, h.
Qed.

(** ** A conversion that fails *)

(** X3: when [to_pdf] raises, for an extension that is not known or
    because the converter it called failed, [main] prints
    ["Error during conversion: "] followed by the message of the exception and
    returns without a document; nothing of the layout engine has run.  The
    exception is the [ValueError] for the lower-case suffix, or the one with
    which a call in the trace failed. *)
Theorem conversion_failure_reported (env : Env) (input_path : string)
    (trace : list event) (e : exn) :
  to_pdf env input_path = (trace, inl e) →
  main env input_path
  = (trace ++ [Print ("Error during conversion: " +:+ exn_str e)], inr None) ∧
  (∀ ev, ev ∈ (main env input_path).1 → ¬ engine_event ev) ∧
  (e = ValueError ("Unsupported file format: "
                   +:+ PyStr.lower (PurePath.suffix (PurePath.Path input_path)))
   ∨ ∃ ev, ev ∈ trace ∧ fails env ev = Some e).
Proof.
  intros Hpdf.
  assert (Hmain : main env input_path
    = (trace ++ [Print ("Error during conversion: " +:+ exn_str e)], inr None)).
  { unfold main. rewrite Hpdf. reflexivity. }
  split; [done|]. rewrite Hmain. simpl.
  destruct (to_pdf_trace env input_path _ eq_refl)
    as [[Htr Hres]|(ev & Htr & _ & Hev & Hres)];
    rewrite Hpdf in *; simpl in *; subst trace.
  - split.
    + intros ev Hev [->|[[path ->]| ->]]; simpl in Hev;
        rewrite !elem_of_cons in Hev; destruct Hev as [Hev|[Hev|Hev]];
        try discriminate Hev; by apply elem_of_nil in Hev.
    + destruct Hres as [Hres|Hres]; [discriminate Hres|].
      left. congruence.
  - split.
    + intros ev' Hev' Heng. simpl in Hev'.
      rewrite !elem_of_cons in Hev'.
      destruct Hev' as [->|[->|[->|Hev']]].
      * destruct Heng as [?|[[? ?]|?]]; discriminate.
      * done.
      * destruct Heng as [?|[[? ?]|?]]; discriminate.
      * by apply elem_of_nil in Hev'.
    + right. exists ev. split; [right; left|].
      destruct (fails env ev); [congruence|discriminate Hres].
Qed.

Lemma conversion_failure_reported_witness :
  main failing_env "slides/Deck.PPTX"
  = ([Print "[*] Converting .pptx to PDF...";
      Soffice "temp_processing" "slides/Deck.PPTX";
      Print "Error during conversion: Command returned non-zero exit status 1."],
     inr None).
Proof.
  refine (proj1 (conversion_failure_reported failing_env "slides/Deck.PPTX"
                   [Print "[*] Converting .pptx to PDF...";
                    Soffice "temp_processing" "slides/Deck.PPTX"]
                   (LibraryError "Command returned non-zero exit status 1.") _)).
  vm_compute. reflexivity.
Defined.

(** ** A run that ends with a document *)

(** X7: when [main] ends with a document, [all_tables_html] holds the
    fragments of all tables, page after page in the engine's order and, within
    a page, in the order of detection; the fragment of the [i]-th table of
    page [n] (counting from 1) is the heading [<h3>Page n - Table i</h3>]
    followed by the HTML of the table. *)
Theorem tables_html_in_order (env : Env) (input_path : string)
    (trace : list event) (data : json) (htmls : list string) :
  main env input_path = (trace, inr (Some (data, htmls))) →
  ∃ trace0 path,
    to_pdf env input_path = (trace0, inr path) ∧
    htmls = concat (page_tables_html <$> pages_of env path).
Proof.
  intros (trace0 & path & entries & Hpdf & _ & _ & Hh & _)%main_inv.
  by exists trace0, path.
Qed.

Lemma tables_html_in_order_witness :
  ∃ trace data htmls,
    main sample_env "input/sample.pdf" = (trace, inr (Some (data, htmls))) ∧
    htmls = ["<h3>Page 2 - Table 1</h3>"
             +:+ table_to_html [mkCell 0 0 "A"; mkCell 0 1 "B";
                                mkCell 1 0 "C"; mkCell 1 1 "D"]].
Proof.
  destruct sample_run as (trace & data & htmls & Hrun).
  exists trace, data, htmls. split; [exact Hrun|].
  destruct (tables_html_in_order sample_env "input/sample.pdf" trace data htmls
              Hrun) as (trace0 & path & _ & ->).
  reflexivity.
Defined.

(** X8: when [main] ends with a document, the record of each page holds,
    under [texts], [titles] and [lists], one entry per layout item of the
    category in the engine's order, with the stripped text (the empty string
    when the item has none, never null) and the exported box (null when the
    item has none); under [tables], one entry per table in the order of
    detection, numbered from 1, with the rows of its grid that have text; and
    under [figures], one entry per figure, numbered from 1. *)
Theorem page_record_contents (env : Env) (input_path : string)
    (trace : list event) (data : json) (htmls : list string) :
  main env input_path = (trace, inr (Some (data, htmls))) →
  ∃ trace0 path entries,
    to_pdf env input_path = (trace0, inr path) ∧
    data = JDict {[ "pages" := JList entries ]} ∧
    Forall2 (λ page entry, ∃ d, entry = JDict d ∧ page_contents page d)
            (pages_of env path) entries.
Proof.
  intros (trace0 & path & entries & Hpdf & _ & _ & _ & Hd & Hall)%main_inv.
  by exists trace0, path, entries.
Qed.

Lemma page_record_contents_witness :
  ∃ trace data htmls entries,
    main sample_env "input/sample.pdf" = (trace, inr (Some (data, htmls))) ∧
    data = JDict {[ "pages" := JList entries ]} ∧
    Forall2 (λ page entry, ∃ d, entry = JDict d ∧ page_contents page d)
            sample_pages entries.
Proof.
  destruct sample_run as (trace & data & htmls & Hrun).
  destruct (page_record_contents sample_env "input/sample.pdf" trace data htmls
              Hrun) as (trace0 & path & entries & _ & Hd & Hall).
  by exists trace, data, htmls, entries.
Defined.

(** X9: the events of a run of [main] that ends with a document are, in
    this order: those of [to_pdf], none of which belongs to the layout
    engine; the analyzer is made, run once, on the path that [to_pdf]
    returned, and reset; then, for each page in the engine's order, one
    line is printed and one image [page_<number>.png] is saved under
    [output]; and the closing line is printed. *)
Theorem successful_run_trace (env : Env) (input_path : string)
    (trace : list event) (data : json) (htmls : list string) :
  main env input_path = (trace, inr (Some (data, htmls))) →
  ∃ trace0 path,
    to_pdf env input_path = (trace0, inr path) ∧
    (∀ ev, ev ∈ trace0 → ¬ engine_event ev) ∧
    trace = trace0
            ++ [Print "[*] Creating DeepDoctection analyzer..."; GetAnalyzer;
                Print "[*] Analyzing Document..."; Analyze path; ResetState]
            ++ concat (page_events <$> pages_of env path)
            ++ [Print (PyStr.nl +:+ "✅ Done!")].
Proof.
  intros (trace0 & path & entries & Hpdf & Htr & _)%main_inv.
  exists trace0, path. split; [done|]. split; [|done].
  destruct (to_pdf_trace env input_path _ eq_refl)
    as [[Ht _]|(ev & Ht & _ & Hev & _)];
    rewrite Hpdf in Ht; simpl in Ht; subst trace0; intros ev' Hev' Heng;
    rewrite !elem_of_cons in Hev'.
  - destruct Hev' as [->|Hev']; [|by apply elem_of_nil in Hev'].
    destruct Heng as [?|[[? ?]|?]]; discriminate.
  - destruct Hev' as [->|[->|Hev']]; [|done|by apply elem_of_nil in Hev'].
    destruct Heng as [?|[[? ?]|?]]; discriminate.
Qed.

Lemma successful_run_trace_witness :
  ∃ data htmls,
    main sample_env "input/sample.pdf"
    = ([Print "[*] Converting .pdf to PDF...";
        Print "[*] Creating DeepDoctection analyzer..."; GetAnalyzer;
        Print "[*] Analyzing Document..."; Analyze "input/sample.pdf";
        ResetState;
        Print "[+] Processing page 1"; SaveFigure "output/page_1.png";
        Print "[+] Processing page 2"; SaveFigure "output/page_2.png";
        Print (PyStr.nl +:+ "✅ Done!")],
       inr (Some (data, htmls))).
Proof.
  destruct sample_run as (trace & data & htmls & Hrun).
  exists data, htmls. rewrite Hrun. f_equal.
  destruct (successful_run_trace sample_env "input/sample.pdf" trace data htmls
              Hrun) as (trace0 & path & Hpdf & _ & ->).
  vm_compute in Hpdf. injection Hpdf as <- <-. vm_compute. reflexivity.
Defined.

(** X10: [main] ends with a document only if every call it made to a
    collaborator went well: the converter, the three calls of the layout
    engine and the saving of each page image.  (The other way round, when no
    call can fail and the extension is known, [main] does end with a
    document: [main_returns].) *)
Theorem document_needs_every_call (env : Env) (input_path : string)
    (trace : list event) (data : json) (htmls : list string) :
  main env input_path = (trace, inr (Some (data, htmls))) →
  ∀ ev, ev ∈ trace → (∀ line, ev ≠ Print line) → fails env ev = None.
Proof.
  intros (trace0 & path & entries & _ & _ & Hok & _)%main_inv. exact Hok.
Qed.

Lemma document_needs_every_call_witness :
  fails sample_env (SaveFigure "output/page_2.png") = None.
Proof.
  destruct sample_run as (trace & data & htmls & Hrun).
  apply (document_needs_every_call sample_env "input/sample.pdf" trace data
           htmls Hrun); [|done].
  vm_compute in Hrun. injection Hrun as <- _ _.
  rewrite !elem_of_cons. do 9 right. left. reflexivity.
Defined.

(** ** The spelling of the input path *)

(** X12: [to_pdf] and [main] see their argument as a path, not as a
    string: the argument and the string of the path it parses to (without
    doubled or trailing slashes and without [.] components) have the same
    outcome, events included. *)
Theorem outcome_up_to_path_spelling (env : Env) (input_path : string) :
  to_pdf env (PurePath.to_str (PurePath.Path input_path))
  = to_pdf env input_path ∧
  main env (PurePath.to_str (PurePath.Path input_path)) = main env input_path.
Proof.
  assert (to_pdf env (PurePath.to_str (PurePath.Path input_path))
          = to_pdf env input_path) as Hpdf
    by apply to_pdf_Path, Path_to_str_Path.
  split; [done|]. unfold main. by rewrite Hpdf.
Qed.
